(** * ChatOpsDesktop: chat-session persistence, file resolution and the
      single request worker

    A shallow embedding of the persistence core of the desktop chat client:

    - [GUI/Item_SidePanel.py]: [sanitize_filename], [save_chat_to_folder],
      [rename_chat], [delete_chat], [delete_folder], [finish_rename];
    - [Operation/Operation_Chat_Controller.py]: [resolve_chat_file],
      [_ensure_chat_file], [_append_record], [handle_new_chat],
      [handle_open_chat_file] and the [AIChatWorker] loop.

    Part I holds the definitions, Part II the lemmas and theorems. *)

From Stdlib Require Import List NArith Bool Lia Arith.
From Stdlib Require String Ascii.
Import ListNotations.
Import String.StringSyntax.
Delimit Scope string_scope with string.

(* ================================================================== *)
(** * Part I: the embedding                                             *)
(* ================================================================== *)

(** ** Python strings

    A Python [str] is a sequence of Unicode code points.  The code only
    inspects code points (character classes, slicing by index, [len]), so
    a string is a list of code points. *)

Module PyStr.

Definition char := N.
Definition str := list char.

(** Literals: an ASCII literal of the source, as code points. *)
Definition lit (s : String.string) : str :=
  map Ascii.N_of_ascii (String.list_ascii_of_string s).
Arguments lit s%_string.

Fixpoint str_eqb (a b : str) : bool :=
  match a, b with
  | [], [] => true
  | x :: a', y :: b' => N.eqb x y && str_eqb a' b'
  | _, _ => false
  end.

(** [str.isspace] on one code point, which is also what the pattern
    [\s] matches on a [str]: both go through [Py_UNICODE_ISSPACE]. *)
Definition is_space (c : char) : bool :=
  ((9 <=? c) && (c <=? 13)
   || (28 <=? c) && (c <=? 32)
   || (c =? 133) || (c =? 160) || (c =? 5760)
   || (8192 <=? c) && (c <=? 8202)
   || (c =? 8232) || (c =? 8233) || (c =? 8239) || (c =? 8287)
   || (c =? 12288))%N.

Definition SPACE : char := 32%N.
Definition DOT : char := 46%N.
Definition UNDERSCORE : char := 95%N.
Definition SLASH : char := 47%N.

(** Leading elements satisfying [p] removed: [str.lstrip]. *)
Fixpoint dropwhile (p : char -> bool) (s : str) : str :=
  match s with
  | [] => []
  | c :: r => if p c then dropwhile p r else s
  end.

Definition lstrip (p : char -> bool) (s : str) : str := dropwhile p s.
Definition rstrip (p : char -> bool) (s : str) : str :=
  rev (dropwhile p (rev s)).

(** [s.strip()], [s.rstrip()] : whitespace on both ends / on the right. *)
Definition strip (s : str) : str := rstrip is_space (lstrip is_space s).

(** [s.rstrip(' .')] *)
Definition is_dot_or_space (c : char) : bool :=
  (N.eqb c SPACE || N.eqb c DOT).

(** [re.sub(r'\s+', ' ', s)]: every maximal run of whitespace becomes
    one space.  A whitespace character is dropped when the run goes on
    and becomes the space when the run ends. *)
Fixpoint collapse_ws (s : str) : str :=
  match s with
  | [] => []
  | c :: r =>
      if is_space c then
        match r with
        | c' :: _ => if is_space c' then collapse_ws r
                     else SPACE :: collapse_ws r
        | [] => [SPACE]
        end
      else c :: collapse_ws r
  end.

Definition startswith (pre s : str) : bool :=
  str_eqb (firstn (length pre) s) pre.

Definition endswith (s suf : str) : bool :=
  str_eqb (skipn (length s - length suf) s) suf.

(** [s.split(sep)] on a one-character separator. *)
Fixpoint split_on (sep : char) (s : str) : list str :=
  match s with
  | [] => [[]]
  | c :: r =>
      if N.eqb c sep then [] :: split_on sep r
      else match split_on sep r with
           | w :: ws => (c :: w) :: ws
           | [] => [[c]]
           end
  end.

(** [s.rfind('.')]: index of the last dot, if any. *)
Fixpoint rfind (x : char) (s : str) : option nat :=
  match s with
  | [] => None
  | c :: r =>
      match rfind x r with
      | Some i => Some (S i)
      | None => if N.eqb c x then Some 0 else None
      end
  end.

(** [str.lower] restricted to the ASCII letters; the models below take
    the full [str.lower] as a parameter and the worked examples use
    this one. *)
Definition ascii_lower (s : str) : str :=
  map (fun c => if ((65 <=? c) && (c <=? 90))%N then (c + 32)%N else c) s.

(** [a] is a prefix of [s]: some [t] completes it. *)
Definition prefix_of (a s : str) : Prop := exists t, s = a ++ t.

End PyStr.
Import PyStr.

(** ** Wall-clock time and [strftime] *)

Module Clock.

(** [datetime.now()]: the fields the format strings use. *)
Record datetime := {
  year : N; month : N; day : N; hour : N; minute : N; second : N
}.

Definition digit (n : N) : char := (48 + n mod 10)%N.

(** [%m], [%d], [%H], [%M], [%S]: two decimal digits. *)
Definition dec2 (n : N) : str := [digit (n / 10); digit n].
(** [%Y]: four decimal digits (years 1..9999). *)
Definition dec4 (n : N) : str :=
  [digit (n / 1000); digit (n / 100); digit (n / 10); digit n].

Definition HYPHEN : char := 45%N.

(** [%Y-%m-%d] and [%H-%M-%S] *)
Definition ymd (t : datetime) : str :=
  dec4 (year t) ++ [HYPHEN] ++ dec2 (month t) ++ [HYPHEN] ++ dec2 (day t).
Definition hms (t : datetime) : str :=
  dec2 (hour t) ++ [HYPHEN] ++ dec2 (minute t) ++ [HYPHEN]
    ++ dec2 (second t).

(** [strftime("Chat_%Y-%m-%d_%H-%M-%S")], the fallback stem of
    [sanitize_filename]. *)
Definition stamp_fallback (t : datetime) : str :=
  lit "Chat_" ++ ymd t ++ [UNDERSCORE] ++ hms t.

(** [f"Chat {now.strftime('%Y-%m-%d %H-%M-%S')}"], the title given by
    [handle_new_chat] and [save_chat_to_folder]. *)
Definition stamp_title (t : datetime) : str :=
  lit "Chat " ++ ymd t ++ [SPACE] ++ hms t.

(** [f"Chat {timestamp}"] with [%Y-%m-%d_%H-%M-%S], the title given by
    [_ensure_chat_file]. *)
Definition stamp_ensure (t : datetime) : str :=
  lit "Chat " ++ ymd t ++ [UNDERSCORE] ++ hms t.

(** [strftime("%Y%m%d%H%M%S")], the collision suffix of [rename_chat]. *)
Definition stamp_compact (t : datetime) : str :=
  dec4 (year t) ++ dec2 (month t) ++ dec2 (day t)
    ++ dec2 (hour t) ++ dec2 (minute t) ++ dec2 (second t).

End Clock.
Import Clock.

(** ** File-name sanitization *)

Module Sanitize.

(** The character class of the first pattern: slash, backslash, colon,
    star, question mark, double quote, less-than, greater-than, bar. *)
Definition forbidden (c : char) : bool :=
  ((c =? 47) || (c =? 92) || (c =? 58) || (c =? 42) || (c =? 63)
   || (c =? 34) || (c =? 60) || (c =? 62) || (c =? 124))%N.

(** [re.sub] of that class by an underscore. *)
Definition replace_forbidden (s : str) : str :=
  map (fun c => if forbidden c then UNDERSCORE else c) s.

(** The prefix both sanitizers share: forbidden characters replaced,
    whitespace collapsed, both ends stripped. *)
Definition cleaned (s : str) : str :=
  strip (collapse_ws (replace_forbidden s)).

Definition max_len_default : nat := 200.

(** [Item_SidePanel.sanitize_filename(name, max_len)]; [now] is the
    value [datetime.now()] returns when the fallback is taken. *)
Definition sanitize_filename_len (max_len : nat) (now : datetime)
    (name : str) : str :=
  let cleaned := cleaned name in
  let cleaned :=
    if max_len <? length cleaned
    then rstrip is_space (firstn max_len cleaned)
    else cleaned in
  let cleaned := rstrip is_dot_or_space cleaned in
  match cleaned with
  | [] => stamp_fallback now
  | _ => cleaned
  end.

Definition sanitize_filename (now : datetime) (name : str) : str :=
  sanitize_filename_len max_len_default now name.

(** The local helper [_sanitize] of [resolve_chat_file]. *)
Definition _sanitize (s : str) : str :=
  rstrip is_dot_or_space (cleaned s).

(** *** What a sanitized stem looks like *)

Definition no_forbidden (s : str) : Prop :=
  Forall (fun c => forbidden c = false) s.

(** All whitespace is the plain space, and never two in a row. *)
Fixpoint collapsed (s : str) : Prop :=
  match s with
  | [] => True
  | c :: r =>
      (is_space c = true ->
       c = SPACE /\ match r with
                    | c' :: _ => is_space c' = false
                    | [] => True
                    end)
      /\ collapsed r
  end.

Definition starts_clean (s : str) : Prop :=
  match s with
  | c :: _ => is_space c = false
  | [] => True
  end.

(** Non-empty, and the last character is neither whitespace nor a dot. *)
Definition ends_clean (s : str) : Prop :=
  exists r c, s = r ++ [c] /\ is_space c = false /\ c <> DOT.

Definition clean_stem (s : str) : Prop :=
  no_forbidden s /\ collapsed s /\ starts_clean s /\ ends_clean s
  /\ length s <= max_len_default.

End Sanitize.
Import Sanitize.

(** ** JSON values

    A chat file holds JSON text.  The program only builds values with
    [json.dump]/[json.dumps] and reads them back with [json.load]; the
    model keeps the value and takes those two library calls to be inverse
    on it.  An object is the Python [dict] it loads to: keys in insertion
    order, each key once. *)

Module Json.

#[warnings="-register-all"]
Inductive json :=
| JNull
| JBool (b : bool)
| JNum (n : N)
| JStr (s : str)
| JArr (items : list json)
| JObj (fields : list (str * json)).

Definition dict := list (str * json).

(** [d.get(k)] *)
Fixpoint dict_lookup (d : dict) (k : str) : option json :=
  match d with
  | [] => None
  | (k', v) :: r => if str_eqb k' k then Some v else dict_lookup r k
  end.

(** [d.get(k, default)] *)
Definition dict_get (d : dict) (k : str) (default : json) : json :=
  match dict_lookup d k with
  | Some v => v
  | None => default
  end.

(** [d[k] = v]: an existing key keeps its place. *)
Fixpoint dict_set (d : dict) (k : str) (v : json) : dict :=
  match d with
  | [] => [(k, v)]
  | (k', v') :: r =>
      if str_eqb k' k then (k', v) :: r else (k', v') :: dict_set r k v
  end.

(** [{**a, **b}]: the entries of [b] written over those of [a]. *)
Definition dict_update (a b : dict) : dict :=
  fold_left (fun acc kv => dict_set acc (fst kv) (snd kv)) b a.

(** [v == s] for a JSON value and a Python string. *)
Definition json_is_str (v : json) (s : str) : bool :=
  match v with
  | JStr t => str_eqb t s
  | _ => false
  end.

(** [d.get("title", default)] with the empty string as default: the
    title a loaded object carries; an object without the field reads as
    the empty title. *)
Definition title_field (d : dict) : json :=
  dict_get d (lit "title") (JStr []).

End Json.
Import Json.

(** ** The file system

    POSIX paths as [pathlib] keeps them: a list of components, the root
    being the component [/].  There are no links, so two paths name the
    same file exactly when they are equal, and a [..] component is not
    resolved.  A regular file is represented by the JSON value its text
    parses to, or [None] when [json.load] would raise on it.  The order
    of the association list is the order in which the system lists a
    directory. *)

Module FS.

Definition Path := list str.

Inductive node :=
| File (content : option json)
| Dir.

Definition fs := list (Path * node).

Fixpoint path_eqb (a b : Path) : bool :=
  match a, b with
  | [], [] => true
  | x :: a', y :: b' => str_eqb x y && path_eqb a' b'
  | _, _ => false
  end.

Definition ROOT : str := [SLASH].

Definition is_absolute (s : str) : bool :=
  match s with
  | c :: _ => N.eqb c SLASH
  | [] => false
  end.

Definition is_nil (s : str) : bool :=
  match s with [] => true | _ => false end.

(** [Path(s)]: split on the separator; empty and [.] components go. *)
Definition parse_path (s : str) : Path :=
  (if is_absolute s then [ROOT] else [])
    ++ filter (fun c => negb (is_nil c) && negb (str_eqb c [DOT]))
              (split_on SLASH s).

(** [p / s] *)
Definition pjoin (p : Path) (s : str) : Path :=
  if is_absolute s then parse_path s else p ++ parse_path s.

(** [p.name], [p.parent], [p.stem] (the stem as CPython 3.8 to 3.12
    computes it) *)
Definition name (p : Path) : str := last p [].
Definition parent (p : Path) : Path := removelast p.

Definition stem_of_name (nm : str) : str :=
  match rfind DOT nm with
  | Some i => if (0 <? i) && (i <? length nm - 1) then firstn i nm else nm
  | None => nm
  end.
Definition stem (p : Path) : str := stem_of_name (name p).

Fixpoint assoc (f : fs) (p : Path) : option node :=
  match f with
  | [] => None
  | (k, n) :: r => if path_eqb k p then Some n else assoc r p
  end.

(** The working directory and the root are always there. *)
Definition fs_lookup (f : fs) (p : Path) : option node :=
  match p with
  | [] => Some Dir
  | _ => if path_eqb p [ROOT] then Some Dir else assoc f p
  end.

Definition fs_exists (f : fs) (p : Path) : bool :=
  match fs_lookup f p with Some _ => true | None => false end.

Definition fs_is_dir (f : fs) (p : Path) : bool :=
  match fs_lookup f p with Some Dir => true | _ => false end.

Definition fs_is_file (f : fs) (p : Path) : bool :=
  match fs_lookup f p with Some (File _) => true | _ => false end.

Definition JSON_EXT : str := lit ".json".

(** [dir.glob("*.json")]: the entries of [dir] whose name ends in
    [.json], in listing order. *)
Definition glob_json (f : fs) (dir : Path) : list Path :=
  if fs_is_dir f dir then
    map fst
      (filter (fun e => negb (path_eqb (fst e) [])
                        && path_eqb (parent (fst e)) dir
                        && endswith (name (fst e)) JSON_EXT) f)
  else [].

(** [json.load(open(p))]; [None] is any exception it raises. *)
Definition read_json (f : fs) (p : Path) : option json :=
  match fs_lookup f p with
  | Some (File (Some j)) => Some j
  | _ => None
  end.

Definition fs_remove (f : fs) (p : Path) : fs :=
  filter (fun e => negb (path_eqb (fst e) p)) f.

(** A new or rewritten entry is listed first: the system promises no
    order, and no result below depends on this choice. *)
Definition fs_put (f : fs) (p : Path) (n : node) : fs :=
  (p, n) :: fs_remove f p.

(** [open(p, "w")] followed by a write, and [Path.write_text]:
    the parent has to be a directory and [p] must not be one. *)
Definition os_write (f : fs) (p : Path) (j : json) : option fs :=
  if fs_is_dir f (parent p) && negb (fs_is_dir f p)
  then Some (fs_put f p (File (Some j)))
  else None.

(** [p.unlink()] *)
Definition os_unlink (f : fs) (p : Path) : option fs :=
  if fs_is_file f p then Some (fs_remove f p) else None.

(** [q] lies strictly below [p]. *)
Fixpoint below (p q : Path) : bool :=
  match p, q with
  | [], _ :: _ => true
  | x :: p', y :: q' => str_eqb x y && below p' q'
  | _, _ => false
  end.

Definition has_children (f : fs) (p : Path) : bool :=
  existsb (fun e => below p (fst e)) f.

(** The entries below [src] moved below [dst]. *)
Definition move_below (src dst : Path) (e : Path * node) : Path * node :=
  if below src (fst e)
  then (dst ++ skipn (length src) (fst e), snd e)
  else e.

(** [src.rename(dst)] (POSIX [rename(2)]); [None] is an [OSError]. *)
Definition os_rename (f : fs) (src dst : Path) : option fs :=
  match assoc f src with
  | None => None
  | Some (File c) =>
      if negb (fs_is_dir f (parent dst)) || fs_is_dir f dst then None
      else if path_eqb src dst then Some f
      else Some (fs_put (fs_remove f src) dst (File c))
  | Some Dir =>
      if negb (fs_is_dir f (parent dst)) || fs_is_file f dst
         || below src dst || has_children f dst then None
      else if path_eqb src dst then Some f
      else Some (fs_put (map (move_below src dst) (fs_remove f src))
                        dst Dir)
  end.

(** [shutil.rmtree(p)] *)
Definition os_rmtree (f : fs) (p : Path) : option fs :=
  match assoc f p with
  | Some Dir =>
      Some (filter (fun e => negb (path_eqb (fst e) p)
                             && negb (below p (fst e))) f)
  | _ => None
  end.

(** [p.mkdir(exist_ok=True)] *)
Definition os_mkdir (f : fs) (p : Path) : option fs :=
  match fs_lookup f p with
  | Some Dir => Some f
  | Some (File _) => None
  | None => if fs_is_dir f (parent p) then Some (fs_put f p Dir) else None
  end.

(** [p.mkdir(parents=True, exist_ok=True)]: the missing ancestors are
    made first, outermost first. *)
Fixpoint mkdir_from (f : fs) (made : Path) (rest : Path) : option fs :=
  match rest with
  | [] => Some f
  | c :: rest' =>
      let q := made ++ [c] in
      match os_mkdir f q with
      | Some f' => mkdir_from f' q rest'
      | None => None
      end
  end.

Definition os_mkdir_parents (f : fs) (p : Path) : option fs :=
  mkdir_from f [] p.

(** A name without separator. *)
Definition plain (s : str) : Prop := Forall (fun c => c <> SLASH) s.

(** The two paths that are there whatever the disk holds. *)
Definition special (p : Path) : Prop := p = [] \/ p = [ROOT].

End FS.
Import FS.

(** ** The side panel: folders and chat rows in memory, files on disk *)

Module SidePanel.

(** A [QListWidgetItem] is an object: it is known by its identity and
    its [Qt.UserRole] data [(folder_name, chat_title)] lives in a store
    that every holder of the item sees.  A folder header has the empty
    string as title. *)
Definition item_id := nat.

(** One value of the [folders] dictionary. *)
Record folder_rec := {
  f_item : item_id;
  f_items : list item_id;
  f_expanded : bool
}.

(** The [ChatItemWidget] of a chat row: the folder name it was made
    with and the text of its label. *)
Record chat_widget := {
  w_folder_name : str;
  w_label : str
}.

Record panel := {
  folders : list (str * folder_rec);
  history_list : list item_id;
  item_data : list (item_id * (str * str));
  widgets : list (item_id * chat_widget);
  active_folder : option str;
  chat_counter : nat;
  next_item : item_id;
  storage_root : Path
}.

(** [Slide_Side_Panel(storage_root="ChatHistory")] before any folder is
    loaded. *)
Definition empty_panel : panel :=
  {| folders := []; history_list := []; item_data := []; widgets := [];
     active_folder := None; chat_counter := 0; next_item := 0;
     storage_root := parse_path (lit "ChatHistory") |}.

(** *** Small stores *)

Fixpoint folders_get (d : list (str * folder_rec)) (k : str)
  : option folder_rec :=
  match d with
  | [] => None
  | (k', v) :: r => if str_eqb k' k then Some v else folders_get r k
  end.

Fixpoint folders_set (d : list (str * folder_rec)) (k : str)
    (v : folder_rec) : list (str * folder_rec) :=
  match d with
  | [] => [(k, v)]
  | (k', v') :: r =>
      if str_eqb k' k then (k', v) :: r else (k', v') :: folders_set r k v
  end.

Fixpoint folders_pop (d : list (str * folder_rec)) (k : str)
  : list (str * folder_rec) :=
  match d with
  | [] => []
  | (k', v') :: r =>
      if str_eqb k' k then r else (k', v') :: folders_pop r k
  end.

Fixpoint store_get {A} (s : list (item_id * A)) (i : item_id) : option A :=
  match s with
  | [] => None
  | (j, v) :: r => if Nat.eqb j i then Some v else store_get r i
  end.

Definition store_set {A} (s : list (item_id * A)) (i : item_id) (v : A)
  : list (item_id * A) :=
  (i, v) :: filter (fun e => negb (Nat.eqb (fst e) i)) s.

(** [item.data(Qt.UserRole)] *)
Definition data_of (P : panel) (i : item_id) : option (str * str) :=
  store_get (item_data P) i.

(** [history_list.row(item)]: [None] stands for [-1]. *)
Fixpoint row_of (l : list item_id) (i : item_id) : option nat :=
  match l with
  | [] => None
  | j :: r => if Nat.eqb j i then Some 0
              else option_map S (row_of r i)
  end.

(** [history_list.insertItem(row, item)]; a row past the end appends. *)
Fixpoint insert_at (l : list item_id) (row : nat) (i : item_id)
  : list item_id :=
  match row, l with
  | 0, _ => i :: l
  | S n, [] => [i]
  | S n, j :: r => j :: insert_at r n i
  end.

(** [list.remove(item)] and [takeItem(row(item))]: the first
    occurrence goes, if there is one. *)
Fixpoint remove_first (l : list item_id) (i : item_id) : list item_id :=
  match l with
  | [] => []
  | j :: r => if Nat.eqb j i then r else j :: remove_first r i
  end.

Definition mem (i : item_id) (l : list item_id) : bool :=
  existsb (Nat.eqb i) l.

(** *** Folder and chat creation *)

(** [create_folder(name)] for a given name. *)
Definition create_folder (P : panel) (nm : str) : panel :=
  let item := next_item P in
  {| folders := folders_set (folders P) nm
                  {| f_item := item; f_items := []; f_expanded := true |};
     history_list := history_list P ++ [item];
     item_data := store_set (item_data P) item (nm, []);
     widgets := widgets P;
     active_folder :=
       match active_folder P with
       | None | Some [] => Some nm
       | Some a => Some a
       end;
     chat_counter := chat_counter P;
     next_item := S item;
     storage_root := storage_root P |}.

(** [title if title else f"Chat {time_str}"] *)
Definition title_or_stamp (title : option str) (now : datetime) : str :=
  match title with
  | Some (c :: t) => c :: t
  | _ => stamp_title now
  end.

(** The path [save_chat_to_folder] writes to. *)
Definition chat_file_of (P : panel) (now : datetime)
    (folder_name chat_title : str) : Path :=
  pjoin (pjoin (storage_root P) folder_name)
        (sanitize_filename now chat_title ++ JSON_EXT).

(** [save_chat_to_folder(folder_name, title, save_json)]: the new row,
    then the JSON file.  Returns the panel, the disk and the new item.
    A raising [mkdir] leaves the disk as it is; a failed write is
    caught and reported.  (The folder is there after [create_folder],
    so the first branch of the second look-up is never taken.) *)
Definition save_chat_to_folder (P : panel) (f : fs) (now : datetime)
    (folder_name : str) (title : option str) (save_json : bool)
  : panel * fs * item_id :=
  let P1 := match folders_get (folders P) folder_name with
            | Some _ => P
            | None => create_folder P folder_name
            end in
  match folders_get (folders P1) folder_name with
  | None => (P1, f, next_item P1)
  | Some folder =>
      let chat_title := title_or_stamp title now in
      let item := next_item P1 in
      let row := match row_of (history_list P1) (f_item folder) with
                 | Some r => r + length (f_items folder) + 1
                 | None => length (f_items folder)
                 end in
      let P2 :=
        {| folders := folders_set (folders P1) folder_name
                        {| f_item := f_item folder;
                           f_items := f_items folder ++ [item];
                           f_expanded := f_expanded folder |};
           history_list := insert_at (history_list P1) row item;
           item_data := store_set (item_data P1) item
                          (folder_name, chat_title);
           widgets := store_set (widgets P1) item
                        {| w_folder_name := folder_name;
                           w_label := chat_title |};
           active_folder := active_folder P1;
           chat_counter := S (chat_counter P1);
           next_item := S item;
           storage_root := storage_root P1 |} in
      if save_json then
        let folder_path := pjoin (storage_root P) folder_name in
        match os_mkdir f folder_path with
        | None => (P2, f, item)
        | Some f1 =>
            let chat_file := chat_file_of P now folder_name chat_title in
            let chat_data :=
              JObj [(lit "title", JStr chat_title);
                    (lit "messages", JArr [])] in
            match os_write f1 chat_file chat_data with
            | Some f2 => (P2, f2, item)
            | None => (P2, f1, item)
            end
        end
      else (P2, f, item)
  end.

(** The test of the stored title on a loaded file: it is a [dict] and
    its title field equals [title]. *)
Definition title_matches (data : option json) (title : str) : bool :=
  match data with
  | Some (JObj d) => json_is_str (title_field d) title
  | _ => false
  end.

Section Lower.

(** [str.lower] *)
Variable lower : str -> str.

(** The search of [rename_chat] for the file to rename: the two
    candidate names, then the normalized stems, then the titles
    stored in the files. *)
Definition rename_find (f : fs) (now : datetime) (folder_path : Path)
    (old_title new_title : str) : option Path :=
  let candidates :=
    [pjoin folder_path (old_title ++ JSON_EXT);
     pjoin folder_path (sanitize_filename now old_title ++ JSON_EXT)] in
  let all_jsons := glob_json f folder_path in
  match find (fs_exists f) candidates with
  | Some c => Some c
  | None =>
      let norm_new := lower (sanitize_filename now new_title) in
      match find (fun p =>
                    let stem_norm :=
                      lower (sanitize_filename now (stem p)) in
                    str_eqb stem_norm norm_new
                    || str_eqb stem_norm
                         (lower (sanitize_filename now old_title)))
                 all_jsons with
      | Some p => Some p
      | None =>
          find (fun p => title_matches (read_json f p) old_title)
               all_jsons
      end
  end.

(** The ways [rename_find] can come to a file. *)
Inductive rename_source (f : fs) (now : datetime) (folder_path : Path)
    (old_title new_title : str) (p : Path) : Prop :=
| src_exact_name :
    p = pjoin folder_path (old_title ++ JSON_EXT) ->
    fs_exists f p = true ->
    rename_source f now folder_path old_title new_title p
| src_sanitized_name :
    p = pjoin folder_path
              (sanitize_filename now old_title ++ JSON_EXT) ->
    fs_exists f p = true ->
    rename_source f now folder_path old_title new_title p
| src_normalized_stem :
    In p (glob_json f folder_path) ->
    lower (sanitize_filename now (stem p))
      = lower (sanitize_filename now new_title)
    \/ lower (sanitize_filename now (stem p))
       = lower (sanitize_filename now old_title) ->
    rename_source f now folder_path old_title new_title p
| src_title_field :
    In p (glob_json f folder_path) ->
    (exists d, read_json f p = Some (JObj d)
               /\ title_field d = JStr old_title) ->
    rename_source f now folder_path old_title new_title p.

(** The name given on a collision: stem, underscore, compact stamp. *)
Definition stamped_target (now : datetime) (folder_path : Path)
    (new_stem : str) : Path :=
  pjoin folder_path
        (new_stem ++ [UNDERSCORE] ++ stamp_compact now ++ JSON_EXT).

(** [rename_chat(listwidget_item, old_title, new_title)].  The clock
    is read once: the call is taken to finish within one second.
    Every exception ends in one of the two handlers, with the disk as
    it was. *)
Definition rename_chat (P : panel) (f : fs) (now : datetime)
    (item : item_id) (old_title new_title : str) : fs :=
  match data_of P item with
  | None => f
  | Some (folder_name, _) =>
      let folder_path := pjoin (storage_root P) folder_name in
      if negb (fs_exists f folder_path) then f
      else
        match rename_find f now folder_path old_title new_title with
        | Some chosen =>
            let new_stem := sanitize_filename now new_title in
            let target := pjoin folder_path (new_stem ++ JSON_EXT) in
            if fs_exists f target && path_eqb target chosen then f
            else
              let target :=
                if fs_exists f target && negb (path_eqb target chosen)
                then stamped_target now folder_path new_stem
                else target in
              match os_rename f chosen target with
              | Some f' => f'
              | None => f
              end
        | None => f
        end
  end.

(** [ChatItemWidget.finish_rename]: [text] is what the editor holds.
    The row's data and label change first, then the disk. *)
Definition finish_rename (P : panel) (f : fs) (now : datetime)
    (item : item_id) (text : str) : panel * fs :=
  match store_get (widgets P) item with
  | None => (P, f)
  | Some w =>
      let old_title := w_label w in
      let new_title := match strip text with
                       | [] => old_title
                       | t => t
                       end in
      let P1 :=
        {| folders := folders P;
           history_list := history_list P;
           item_data := store_set (item_data P) item
                          (w_folder_name w, new_title);
           widgets := store_set (widgets P) item
                        {| w_folder_name := w_folder_name w;
                           w_label := new_title |};
           active_folder := active_folder P;
           chat_counter := chat_counter P;
           next_item := next_item P;
           storage_root := storage_root P |} in
      (P1, rename_chat P1 f now item old_title new_title)
  end.

End Lower.

(** *** Deletion *)

Definition with_lists (P : panel) (fo : list (str * folder_rec))
    (hl : list item_id) (act : option str) : panel :=
  {| folders := fo; history_list := hl; item_data := item_data P;
     widgets := widgets P; active_folder := act;
     chat_counter := chat_counter P; next_item := next_item P;
     storage_root := storage_root P |}.

(** [delete_chat(item)] *)
Definition delete_chat (P : panel) (f : fs) (now : datetime)
    (item : item_id) : panel * fs :=
  match data_of P item with
  | None => (P, f)
  | Some (folder_name, chat_title) =>
      match folders_get (folders P) folder_name with
      | None => (P, f)
      | Some folder =>
          if negb (mem item (f_items folder)) then (P, f)
          else
            let P' :=
              with_lists P
                (folders_set (folders P) folder_name
                   {| f_item := f_item folder;
                      f_items := remove_first (f_items folder) item;
                      f_expanded := f_expanded folder |})
                (remove_first (history_list P) item)
                (active_folder P) in
            let chat_file :=
              pjoin (pjoin (storage_root P) folder_name)
                    (chat_title ++ JSON_EXT) in
            let chat_file_alt :=
              pjoin (pjoin (storage_root P) folder_name)
                    (sanitize_filename now chat_title ++ JSON_EXT) in
            let f' :=
              if fs_exists f chat_file then
                match os_unlink f chat_file with
                | Some f1 => f1
                | None => f
                end
              else if fs_exists f chat_file_alt then
                match os_unlink f chat_file_alt with
                | Some f1 => f1
                | None => f
                end
              else f in
            (P', f')
      end
  end.

(** [delete_folder(item)] *)
Definition delete_folder (P : panel) (f : fs) (item : item_id)
  : panel * fs :=
  match data_of P item with
  | None => (P, f)
  | Some (folder_name, _) =>
      match folders_get (folders P) folder_name with
      | None => (P, f)
      | Some folder =>
          let fo := folders_pop (folders P) folder_name in
          let hl := fold_left remove_first (f_items folder)
                              (history_list P) in
          let hl := remove_first hl (f_item folder) in
          let folder_path := pjoin (storage_root P) folder_name in
          let f' := if fs_exists f folder_path then
                      match os_rmtree f folder_path with
                      | Some f1 => f1
                      | None => f
                      end
                    else f in
          let act :=
            match active_folder P with
            | Some a =>
                if str_eqb a folder_name
                then match rev fo with
                     | (k, _) :: _ => Some k
                     | [] => None
                     end
                else Some a
            | None => None
            end in
          (with_lists P fo hl act, f')
      end
  end.

End SidePanel.

(** ** The chat controller: file resolution *)

Module Controller.

Definition CHAT_HISTORY : Path := parse_path (lit "ChatHistory").
Definition TITLE : str := lit "title".

(** The test of the stored title on a loaded value [data]: it is a
    [dict] and its title field equals [chat_title]. *)
Definition title_matches (data : option json) (chat_title : str) : bool :=
  match data with
  | Some (JObj d) => json_is_str (title_field d) chat_title
  | _ => false
  end.

Section Lower.

(** [str.lower] *)
Variable lower : str -> str.

(** [Operation_Chat_Controller.resolve_chat_file(folder, chat_title)] *)
Definition resolve_chat_file (f : fs) (folder chat_title : str) : Path :=
  let folder_path := pjoin CHAT_HISTORY folder in
  if negb (fs_exists f folder_path) || negb (fs_is_dir f folder_path)
  then pjoin folder_path (chat_title ++ JSON_EXT)
  else
    let cand_exact := pjoin folder_path (chat_title ++ JSON_EXT) in
    if fs_exists f cand_exact then cand_exact
    else
      let cand_sanitized :=
        pjoin folder_path (_sanitize chat_title ++ JSON_EXT) in
      if fs_exists f cand_sanitized then cand_sanitized
      else
        let all_jsons := glob_json f folder_path in
        let target_norm := lower (_sanitize chat_title) in
        match find (fun p => str_eqb (lower (_sanitize (stem p)))
                                     target_norm) all_jsons with
        | Some p => p
        | None =>
            match find (fun p => title_matches (read_json f p)
                                               chat_title) all_jsons with
            | Some p => p
            | None => pjoin folder_path (chat_title ++ JSON_EXT)
            end
        end.

(** *** The four resolution strategies, as the claim names them *)

Inductive strategy (f : fs) (folder chat_title : str) (p : Path)
  : Prop :=
| by_exact_name :
    p = pjoin (pjoin CHAT_HISTORY folder) (chat_title ++ JSON_EXT) ->
    fs_exists f p = true ->
    strategy f folder chat_title p
| by_sanitized_name :
    p = pjoin (pjoin CHAT_HISTORY folder)
              (_sanitize chat_title ++ JSON_EXT) ->
    fs_exists f p = true ->
    strategy f folder chat_title p
| by_normalized_stem :
    In p (glob_json f (pjoin CHAT_HISTORY folder)) ->
    lower (_sanitize (stem p)) = lower (_sanitize chat_title) ->
    strategy f folder chat_title p
| by_title_field :
    In p (glob_json f (pjoin CHAT_HISTORY folder)) ->
    (exists d, read_json f p = Some (JObj d)
               /\ title_field d = JStr chat_title) ->
    strategy f folder chat_title p.

End Lower.

(** *** The controller's own state *)

Record controller := {
  current_chat_file : option Path;
  chat_history : list dict;
  model : str
}.

Definition with_file (c : controller) (p : option Path) : controller :=
  {| current_chat_file := p; chat_history := chat_history c;
     model := model c |}.

Definition with_history (c : controller) (h : list dict) : controller :=
  {| current_chat_file := current_chat_file c; chat_history := h;
     model := model c |}.

(** [self.side_panel.active_folder or "Default folder"] *)
Definition active_or_default (P : SidePanel.panel) : str :=
  match SidePanel.active_folder P with
  | Some (c :: r) => c :: r
  | _ => lit "Default folder"
  end.

(** The [dict] written when a chat file is created. *)
Definition init_data (title folder : str) : json :=
  JObj [(TITLE, JStr title); (lit "folder", JStr folder);
        (lit "messages", JArr [])].

(** [_ensure_chat_file()].  The last component of the result tells
    whether the call returned; [false] is an exception that leaves
    through [send_message]. *)
Definition _ensure_chat_file (c : controller) (P : SidePanel.panel)
    (f : fs) (now : datetime)
  : controller * SidePanel.panel * fs * bool :=
  if match current_chat_file c with
     | Some p => fs_exists f p
     | None => false
     end
  then (c, P, f, true)
  else
    let folder := active_or_default P in
    let base_path := pjoin CHAT_HISTORY folder in
    match os_mkdir_parents f base_path with
    | None => (c, P, f, false)
    | Some f1 =>
        let timestamp_title := stamp_ensure now in
        let file_path := pjoin base_path (timestamp_title ++ JSON_EXT) in
        match os_write f1 file_path (init_data timestamp_title folder) with
        | None => (c, P, f1, false)
        | Some f2 =>
            let c' := with_file c (Some file_path) in
            match SidePanel.save_chat_to_folder P f2 now folder
                    (Some timestamp_title) true with
            | (P', f3, _) => (c', P', f3, true)
            end
        end
    end.

(** [{"role": role, **content}], then the optional model name. *)
Definition msg_data (role : str) (content : dict)
    (model_name : option str) : dict :=
  let m := dict_update [(lit "role", JStr role)] content in
  match model_name with
  | Some (c :: r) => dict_set m (lit "model") (JStr (c :: r))
  | _ => m
  end.

(** [json.dumps(self.chat_history)] as a value. *)
Definition history_json (h : list dict) : json := JArr (map JObj h).

(** [_append_record(role, content, model_name)] *)
Definition _append_record (c : controller) (f : fs) (role : str)
    (content : dict) (model_name : option str) : controller * fs :=
  match current_chat_file c with
  | None => (c, f)
  | Some p =>
      let h := chat_history c ++ [msg_data role content model_name] in
      let c' := with_history c h in
      match os_write f p (history_json h) with
      | Some f' => (c', f')
      | None => (c', f)
      end
  end.

(** [handle_new_chat()] *)
Definition handle_new_chat (c : controller) (P : SidePanel.panel)
    (f : fs) (now : datetime) : controller * SidePanel.panel * fs :=
  let c0 := with_file c None in
  let chat_title := stamp_title now in
  let folder_name := active_or_default P in
  let folder_path := pjoin (SidePanel.storage_root P) folder_name in
  match os_mkdir_parents f folder_path with
  | None => (c0, P, f)
  | Some f1 =>
      let chat_file := pjoin folder_path (chat_title ++ JSON_EXT) in
      let written := os_write f1 chat_file
                       (init_data chat_title folder_name) in
      let c1 := match written with
                | Some _ => with_file c0 (Some chat_file)
                | None => c0
                end in
      let f2 := match written with Some f2 => f2 | None => f1 end in
      match SidePanel.save_chat_to_folder P f2 now folder_name
              (Some chat_title) false with
      | (P', f3, _) => (c1, P', f3)
      end
  end.

(** What [for msg in messages] goes through; [None] is a value that
    cannot be iterated. *)
Definition iterate (messages : json) : option (list json) :=
  match messages with
  | JArr l => Some l
  | JObj d => Some (map (fun kv => JStr (fst kv)) d)
  | JStr s => Some (map (fun ch => JStr [ch]) s)
  | _ => None
  end.

(** The loop of [handle_open_chat_file]: one record per message; an
    element that is no [dict] raises and ends the loop. *)
Fixpoint load_messages (self_model : str) (msgs : list json)
  : list dict :=
  match msgs with
  | JObj m :: r =>
      [(lit "role", dict_get m (lit "role") (JStr (lit "user")));
       (lit "text", dict_get m (lit "text") (JStr []));
       (lit "images", dict_get m (lit "images") (JArr []));
       (lit "model", dict_get m (lit "model") (JStr self_model))]
        :: load_messages self_model r
  | _ => []
  end.

(** The role, text and images of a record, read the way the program
    reads them back ([_history_to_messages], [handle_open_chat_file]). *)
Definition view (m : dict) : json * json * json :=
  (dict_get m (lit "role") (JStr (lit "user")),
   dict_get m (lit "text") (JStr []),
   dict_get m (lit "images") (JArr [])).

Section Open.

Variable lower : str -> str.

(** [handle_open_chat_file(folder, chat_title)] *)
Definition handle_open_chat_file (c : controller) (f : fs)
    (folder chat_title : str) : controller :=
  let chat_file := resolve_chat_file lower f folder chat_title in
  if negb (fs_exists f chat_file) then c
  else
    let c1 := with_history (with_file c (Some chat_file)) [] in
    match read_json f chat_file with
    | None => c1
    | Some data =>
        let messages :=
          match data with
          | JObj d => Some (dict_get d (lit "messages") (JArr []))
          | JArr l => Some (JArr l)
          | _ => None
          end in
        match messages with
        | None => c1
        | Some messages =>
            match iterate messages with
            | None => c1
            | Some l => with_history c1 (load_messages (model c) l)
            end
        end
    end.

End Open.

End Controller.

(** ** The request worker

    [AIChatWorker] runs in its own thread; the controller thread calls
    [add_task] and [stop] at any time.  The model is a machine that is
    fed the interleaving: an input is either a call of the controller
    thread or one move of the worker thread to its next control point.
    The answers of the network and of the renderer come with the
    worker's move. *)

Module Worker.

(** The [BubbleMessage] a reply is for, by identity. *)
Definition bubble := nat.

(** A queued [(msgs, bubble)]. *)
Record task := { msgs : json; bubble_of : bubble }.

(** What the [try] block gets from the network up to the point where
    the content and the usage have been read: an exception ([post],
    [raise_for_status], [json], a missing key), or the content with the
    token count when the reply has a [usage] entry. *)
Inductive response :=
| RespError (e : str)
| RespOk (content : str) (usage : option N).

(** What [process_mixed_content(content)] does: returns or raises. *)
Inductive render :=
| RenderOk (html : str)
| RenderError (e : str).

(** The [dict] sent with [finished]; [images] is always [None]. *)
Record payload := { html : str; raw_text : str }.

Definition ok_payload (h content : str) : payload :=
  {| html := h; raw_text := content |}.

Definition error_payload (e : str) : payload :=
  {| html := lit "<p style='color:red'>Error: " ++ e ++ lit "</p>";
     raw_text := e |}.

(** What the worker does that others can see. *)
Inductive event :=
| EvPostStart (t : task)
| EvPostEnd (t : task)
| EvStats (n : N)
| EvFinished (p : payload) (b : bubble)
| EvTaskDone.

(** Where the worker thread stands in [run]: at the test of the
    [while], inside [queue.get], inside the POST, before the test of
    [_running] on the success path, inside the renderer, in the
    [except] block, in the [finally] block, or out of the loop. *)
Inductive wpc :=
| AtLoopHead
| Waiting
| Posting (t : task)
| Parsed (t : task) (content : str)
| Rendering (t : task) (content : str)
| Handling (t : task) (e : str)
| Finishing (t : task)
| Exited.

Record wstate := {
  queue : list (option task);
  running : bool;
  pc : wpc;
  trace : list event;
  added : list task
}.

(** After [__init__] and [start]. *)
Definition init : wstate :=
  {| queue := []; running := true; pc := AtLoopHead; trace := [];
     added := [] |}.

Inductive input :=
| AddTask (t : task)
| Stop
| Work (r : response) (o : render).

Definition goto (s : wstate) (p : wpc) (evs : list event) : wstate :=
  {| queue := queue s; running := running s; pc := p;
     trace := trace s ++ evs; added := added s |}.

Definition take (s : wstate) (q : list (option task)) (p : wpc)
    (evs : list event) : wstate :=
  {| queue := q; running := running s; pc := p;
     trace := trace s ++ evs; added := added s |}.

(** One move of the worker thread in [run]. *)
Definition work (s : wstate) (r : response) (o : render) : wstate :=
  match pc s with
  | AtLoopHead =>
      if running s then goto s Waiting [] else goto s Exited []
  | Waiting =>
      match queue s with
      | [] => goto s AtLoopHead []
      | None :: q => take s q Exited []
      | Some t :: q => take s q (Posting t) [EvPostStart t]
      end
  | Posting t =>
      match r with
      | RespError e => goto s (Handling t e) [EvPostEnd t]
      | RespOk content None => goto s (Parsed t content) [EvPostEnd t]
      | RespOk content (Some n) =>
          goto s (Parsed t content) [EvPostEnd t; EvStats n]
      end
  | Parsed t content =>
      if running s then goto s (Rendering t content) []
      else goto s (Finishing t) []
  | Rendering t content =>
      match o with
      | RenderOk h =>
          goto s (Finishing t)
               [EvFinished (ok_payload h content) (bubble_of t)]
      | RenderError e => goto s (Handling t e) []
      end
  | Handling t e =>
      if running s
      then goto s (Finishing t)
                [EvFinished (error_payload e) (bubble_of t)]
      else goto s (Finishing t) []
  | Finishing t => goto s AtLoopHead [EvTaskDone]
  | Exited => s
  end.

(** [add_task(msgs, bubble)] *)
Definition add_task (s : wstate) (t : task) : wstate :=
  {| queue := queue s ++ [Some t]; running := running s; pc := pc s;
     trace := trace s; added := added s ++ [t] |}.

(** [stop()]: the flag, then the sentinel. *)
Definition stop (s : wstate) : wstate :=
  {| queue := queue s ++ [None]; running := false; pc := pc s;
     trace := trace s; added := added s |}.

Definition step (s : wstate) (i : input) : wstate :=
  match i with
  | AddTask t => add_task s t
  | Stop => stop s
  | Work r o => work s r o
  end.

Definition run (s : wstate) (ins : list input) : wstate :=
  fold_left step ins s.

(** *** Reading a trace *)

Definition is_prefix {A} (a l : list A) : Prop := exists t, l = a ++ t.

(** The tasks taken off the queue, in order. *)
Fixpoint taken (tr : list event) : list task :=
  match tr with
  | [] => []
  | EvPostStart t :: r => t :: taken r
  | _ :: r => taken r
  end.

(** The [finished] signals, in order. *)
Fixpoint finished (tr : list event) : list (payload * bubble) :=
  match tr with
  | [] => []
  | EvFinished p b :: r => (p, b) :: finished r
  | _ :: r => finished r
  end.

Fixpoint done_count (tr : list event) : nat :=
  match tr with
  | [] => 0
  | EvTaskDone :: r => S (done_count r)
  | _ :: r => done_count r
  end.

(** Whether a POST is under way after the trace; [None] when a POST
    began before the one before it had ended, or ended without having
    begun. *)
Definition flight_step (st : option bool) (e : event) : option bool :=
  match st, e with
  | Some false, EvPostStart _ => Some true
  | Some true, EvPostStart _ => None
  | Some true, EvPostEnd _ => Some false
  | Some false, EvPostEnd _ => None
  | _, _ => st
  end.

Definition flight (tr : list event) : option bool :=
  fold_left flight_step tr (Some false).

(** The task in hand whose signal is still to come. *)
Definition pending (p : wpc) : list task :=
  match p with
  | Posting t | Parsed t _ | Rendering t _ | Handling t _ => [t]
  | _ => []
  end.

(** The task in hand. *)
Definition in_hand (p : wpc) : list task :=
  match p with
  | Posting t | Parsed t _ | Rendering t _ | Handling t _
  | Finishing t => [t]
  | _ => []
  end.

Definition tasks_of (q : list (option task)) : list task :=
  flat_map (fun x => match x with Some t => [t] | None => [] end) q.

(** The signal a task ends with while the worker is running. *)
Definition reply (r : response) (o : render) : payload :=
  match r, o with
  | RespOk content _, RenderOk h => ok_payload h content
  | RespOk _ _, RenderError e => error_payload e
  | RespError e, _ => error_payload e
  end.

(** The number of moves from taking a task to the loop head again. *)
Definition moves (r : response) (o : render) : nat :=
  match r, o with
  | RespOk _ _, RenderOk _ => 6
  | RespOk _ _, RenderError _ => 7
  | RespError _, _ => 5
  end.

Definition is_stop (i : input) : bool :=
  match i with Stop => true | _ => false end.

(** The tasks the controller adds, and the moves the worker makes, in a
    list of inputs. *)
Definition adds (ins : list input) : list task :=
  flat_map (fun i => match i with AddTask t => [t] | _ => [] end) ins.

Definition works (ins : list input) : list input :=
  filter (fun i => match i with Work _ _ => true | _ => false end) ins.

(** [k] moves of the worker in a row, the network and the renderer
    answering [r] and [o]. *)
Definition work_times (r : response) (o : render) (k : nat) (s : wstate)
  : wstate :=
  run s (repeat (Work r o) k).

Definition is_posting (p : wpc) : bool :=
  match p with Posting _ => true | _ => false end.

Definition is_rendering (p : wpc) : bool :=
  match p with Rendering _ _ => true | _ => false end.

(** The worker is not inside [queue.get] on an empty queue. *)
Definition engaged (s : wstate) : Prop :=
  pc s <> Waiting \/ queue s <> [].

(** The invariant of the machine. *)
Record invariant (s : wstate) : Prop := {
  inv_fifo : added s = taken (trace s) ++ tasks_of (queue s);
  inv_flight : flight (trace s) = Some (is_posting (pc s));
  inv_prefix : is_prefix (map snd (finished (trace s)))
                         (map bubble_of (taken (trace s)));
  inv_pending :
    running s = true \/ is_rendering (pc s) = true ->
    map snd (finished (trace s)) ++ map bubble_of (pending (pc s))
    = map bubble_of (taken (trace s))
}.

End Worker.

(** ** Worked data for the examples *)

Module Fixtures.

Definition t0 : datetime :=
  {| year := 2025; month := 11; day := 23;
     hour := 9; minute := 5; second := 7 |}.

Definition chat_json (title : str) (messages : list json) : json :=
  JObj [(lit "title", JStr title); (lit "messages", JArr messages)].

Definition folder_F : Path := pjoin Controller.CHAT_HISTORY (lit "F").

(** A folder [F] whose only chat file was renamed by hand: the file is
    [renamed.json], the title inside is [My chat]. *)
Definition fs_drift : fs :=
  [ (Controller.CHAT_HISTORY, Dir);
    (folder_F, Dir);
    (pjoin folder_F (lit "renamed.json"),
      File (Some (chat_json (lit "My chat") []))) ].

(** A session: folder [F] with two chats [A] and [B], each saved to
    its file. *)
Definition fs_root : fs := [(Controller.CHAT_HISTORY, Dir)].

Definition session_A :=
  SidePanel.save_chat_to_folder SidePanel.empty_panel fs_root t0
    (lit "F") (Some (lit "A")) true.
Definition panel_A := fst (fst session_A).
Definition fs_A := snd (fst session_A).
Definition item_A := snd session_A.

Definition session_AB :=
  SidePanel.save_chat_to_folder panel_A fs_A t0
    (lit "F") (Some (lit "B")) true.
Definition panel_AB := fst (fst session_AB).
Definition fs_AB := snd (fst session_AB).
Definition item_B := snd session_AB.

(** The user renames chat [A] to [B], then deletes the renamed chat. *)
Definition renamed :=
  SidePanel.finish_rename ascii_lower panel_AB fs_AB t0 item_A (lit "B").
Definition panel_R := fst renamed.
Definition fs_R := snd renamed.

Definition deleted := SidePanel.delete_chat panel_R fs_R t0 item_A.
Definition panel_D := fst deleted.
Definition fs_D := snd deleted.

(** The drifted folder as [load_chat_history] shows it: one row, titled
    by the [title] field of [renamed.json]. *)
Definition loaded_drift :=
  SidePanel.save_chat_to_folder SidePanel.empty_panel fs_drift t0
    (lit "F") (Some (lit "My chat")) false.
Definition panel_drift := fst (fst loaded_drift).
Definition item_drift := snd loaded_drift.

(** A fresh controller, a new chat, and the first message sent in it. *)
Definition ctrl0 : Controller.controller :=
  {| Controller.current_chat_file := None;
     Controller.chat_history := [];
     Controller.model := lit "openai/gpt-4o" |}.

Definition new_chat :=
  Controller.handle_new_chat ctrl0 SidePanel.empty_panel fs_root t0.
Definition ctrl_new := fst (fst new_chat).
Definition panel_new := snd (fst new_chat).
Definition fs_new := snd new_chat.

Definition new_chat_title : str := lit "Chat 2025-11-23 09-05-07".
Definition new_chat_file : Path :=
  pjoin (pjoin Controller.CHAT_HISTORY (lit "Default folder"))
        (lit "Chat 2025-11-23 09-05-07.json").

Definition hi_content : dict :=
  [(lit "text", JStr (lit "hi")); (lit "images", JNull)].

Definition first_message :=
  Controller._append_record ctrl_new fs_new (lit "user") hi_content None.
Definition ctrl_sent := fst first_message.
Definition fs_sent := snd first_message.

(** Two queued requests; the first one fails on the network. *)
Definition task1 : Worker.task :=
  {| Worker.msgs := JArr []; Worker.bubble_of := 1 |}.
Definition task2 : Worker.task :=
  {| Worker.msgs := JArr []; Worker.bubble_of := 2 |}.
Definition timeout_error : Worker.response :=
  Worker.RespError (lit "Read timed out.").
Definition no_render : Worker.render := Worker.RenderOk [].
Definition queued1 : Worker.wstate := Worker.add_task Worker.init task1.
Definition interleaving : list Worker.input :=
  [Worker.Work timeout_error no_render; Worker.AddTask task2;
   Worker.Work timeout_error no_render;
   Worker.Work timeout_error no_render;
   Worker.Work timeout_error no_render;
   Worker.Work timeout_error no_render].

End Fixtures.

(** ** [Utils/Utils.py]: the static helpers for chat file names *)

Module UtilsPy.

(** The character class of [utils.sanitize_filename]: less-than,
    greater-than, colon, double quote, slash, backslash, bar, question
    mark, star. *)
Definition invalid (c : char) : bool :=
  ((c =? 60) || (c =? 62) || (c =? 58) || (c =? 34) || (c =? 47)
   || (c =? 92) || (c =? 124) || (c =? 63) || (c =? 42))%N.

(** [utils.sanitize_filename(name)]: every character of the class
    becomes an underscore. *)
Definition sanitize_filename (name : str) : str :=
  map (fun c => if invalid c then UNDERSCORE else c) name.

(** [utils.build_chat_file_path(folder_name, chat_title, root_dir)] for
    a given [root_dir]: the folder directory is made, with its parents;
    [None] is the exception [mkdir] raises. *)
Definition build_chat_file_path (f : fs) (root_dir : Path)
    (folder_name chat_title : str) : option (fs * Path) :=
  let folder_path := pjoin (pjoin root_dir (lit "ChatHistory")) folder_name in
  match os_mkdir_parents f folder_path with
  | None => None
  | Some f' =>
      let safe_title := sanitize_filename chat_title in
      Some (f', pjoin folder_path (safe_title ++ JSON_EXT))
  end.

End UtilsPy.

(** ** The side panel, continued: folder rename and what a start-up
       reads from a chat file *)

Module PanelOps.

Import SidePanel.

(** The loop of [update_folder_name] over the chat rows of the folder:
    each row keeps its title and gets the new folder name.  A row
    without data cannot be unpacked: the loop raises there, and the
    second component is [false]. *)
Fixpoint retitle (d : list (item_id * (str * str))) (items : list item_id)
    (new_name : str) : list (item_id * (str * str)) * bool :=
  match items with
  | [] => (d, true)
  | i :: r =>
      match store_get d i with
      | None => (d, false)
      | Some (_, title) => retitle (store_set d i (new_name, title)) r new_name
      end
  end.

(** [update_folder_name(item, old_name, new_name)].  A missing old name
    raises at the [pop], before anything is changed; a row without data
    raises in the loop, after the dictionary and the rows before it have
    been changed. *)
Definition update_folder_name (P : panel) (f : fs)
    (old_name new_name : str) : panel * fs :=
  if is_nil new_name || str_eqb new_name old_name then (P, f)
  else
    match folders_get (folders P) new_name with
    | Some _ => (P, f)
    | None =>
        match folders_get (folders P) old_name with
        | None => (P, f)
        | Some folder =>
            let fo := folders_pop (folders P) old_name
                        ++ [(new_name, folder)] in
            let d0 := store_set (item_data P) (f_item folder)
                                (new_name, []) in
            let (d1, ok) := retitle d0 (f_items folder) new_name in
            if negb ok then
              ({| folders := fo; history_list := history_list P;
                  item_data := d1; widgets := widgets P;
                  active_folder := active_folder P;
                  chat_counter := chat_counter P;
                  next_item := next_item P;
                  storage_root := storage_root P |}, f)
            else
              let act := match active_folder P with
                         | Some a => if str_eqb a old_name
                                     then Some new_name else Some a
                         | None => None
                         end in
              let old_path := pjoin (storage_root P) old_name in
              let new_path := pjoin (storage_root P) new_name in
              let f' := if fs_exists f old_path then
                          match os_rename f old_path new_path with
                          | Some f1 => f1
                          | None => f
                          end
                        else f in
              ({| folders := fo; history_list := history_list P;
                  item_data := d1; widgets := widgets P;
                  active_folder := act;
                  chat_counter := chat_counter P;
                  next_item := next_item P;
                  storage_root := storage_root P |}, f')
        end
    end.

(** The format detection of [load_chat_history] on one loaded file:
    the title the row is to get and the messages, or [None] for a value
    that is neither an object nor an array (the file is skipped). *)
Definition detect_format (file_stem : str) (chat_data : json)
  : option (json * json) :=
  match chat_data with
  | JObj d =>
      Some (dict_get d (lit "title") (JStr file_stem),
            dict_get d (lit "messages") (JArr []))
  | JArr l => Some (JStr file_stem, JArr l)
  | _ => None
  end.

(** The rows of one folder as the list widget shows them: the header,
    then the chats. *)
Definition rows (kv : str * folder_rec) : list item_id :=
  f_item (snd kv) :: f_items (snd kv).

(** The list widget shows the folders in the order of the dictionary,
    each with its chats directly below its header; no row is shown
    twice, every row is older than the next item to be made, and (the
    folders being a dictionary) no folder name occurs twice. *)
Record well_formed (P : panel) : Prop := {
  wf_grouped : history_list P = flat_map rows (folders P);
  wf_nodup : NoDup (history_list P);
  wf_fresh : forall i, In i (history_list P) -> i < next_item P;
  wf_keys : NoDup (map fst (folders P))
}.

End PanelOps.

(* ================================================================== *)
(** * Part II: lemmas and theorems                                      *)
(* ================================================================== *)

(** ** Strings *)

Module PyStrFacts.

Ltac char_bools :=
  repeat match goal with
    | H : (_ || _)%bool = true |- _ =>
        apply orb_true_iff in H; destruct H
    | H : (_ && _)%bool = true |- _ =>
        apply andb_true_iff in H; destruct H
    | H : (_ || _)%bool = false |- _ =>
        apply orb_false_iff in H; destruct H
    | H : (_ =? _)%N = true |- _ => apply N.eqb_eq in H
    | H : (_ =? _)%N = false |- _ => apply N.eqb_neq in H
    | H : (_ <=? _)%N = true |- _ => apply N.leb_le in H
    | H : (_ <=? _)%N = false |- _ => apply N.leb_gt in H
    end.

(** Closes [f c = false] for a character class [f] once the
    hypotheses bound [c]. *)
Ltac class_false f :=
  match goal with
  | |- f ?c = false =>
      let E := fresh "E" in
      destruct (f c) eqn:E; [exfalso; unfold f in E; char_bools; lia
                            | reflexivity]
  end.

Lemma str_eqb_eq (a b : str) : str_eqb a b = true <-> a = b.
Proof.
  revert b; induction a as [|x a IH]; intros [|y b]; simpl;
    try (split; (discriminate || reflexivity)).
  rewrite andb_true_iff, N.eqb_eq, IH. split.
  - intros [-> ->]; reflexivity.
  - intros H; inversion H; auto.
Qed.

Lemma str_eqb_refl (a : str) : str_eqb a a = true.
Proof. apply str_eqb_eq; reflexivity. Qed.

Lemma str_eqb_neq (a b : str) : str_eqb a b = false <-> a <> b.
Proof.
  rewrite <- str_eqb_eq. destruct (str_eqb a b); split; congruence.
Qed.

Lemma is_space_SPACE : is_space SPACE = true.
Proof. reflexivity. Qed.

Lemma dropwhile_split p s :
  exists t, s = t ++ dropwhile p s /\ Forall (fun c => p c = true) t.
Proof.
  induction s as [|c r IH]; simpl.
  - exists []; auto.
  - destruct (p c) eqn:E.
    + destruct IH as [t [Ht Ft]]. exists (c :: t). simpl.
      split; [f_equal; exact Ht | constructor; assumption].
    + exists []; auto.
Qed.

Lemma dropwhile_head p s :
  dropwhile p s = [] \/
  exists c r, dropwhile p s = c :: r /\ p c = false.
Proof.
  induction s as [|c r IH]; simpl; auto.
  destruct (p c) eqn:E; auto. right; eauto.
Qed.

Lemma dropwhile_all p t r :
  Forall (fun c => p c = true) t -> dropwhile p (t ++ r) = dropwhile p r.
Proof.
  induction 1 as [|c t Hc _ IH]; simpl; auto. rewrite Hc; exact IH.
Qed.

Lemma dropwhile_keep p c r : p c = false -> dropwhile p (c :: r) = c :: r.
Proof. intros H; simpl; rewrite H; reflexivity. Qed.

(** [rstrip] removes a suffix made of stripped characters ... *)
Lemma rstrip_split p s :
  exists t, s = rstrip p s ++ t /\ Forall (fun c => p c = true) t.
Proof.
  unfold rstrip. destruct (dropwhile_split p (rev s)) as [t [Ht Ft]].
  exists (rev t). split.
  - rewrite <- rev_app_distr, <- Ht, rev_involutive; reflexivity.
  - apply Forall_rev; exact Ft.
Qed.

(** ... and what is left does not end in one. *)
Lemma rstrip_last p s :
  rstrip p s = [] \/ exists r c, rstrip p s = r ++ [c] /\ p c = false.
Proof.
  unfold rstrip. destruct (dropwhile_head p (rev s)) as [E | [c [r [E Hc]]]];
    rewrite E; simpl; eauto.
Qed.

Lemma rstrip_keep p r c : p c = false -> rstrip p (r ++ [c]) = r ++ [c].
Proof.
  intros H. unfold rstrip. rewrite rev_app_distr. simpl. rewrite H.
  simpl. rewrite rev_involutive. reflexivity.
Qed.

Lemma rstrip_nil p : rstrip p [] = [].
Proof. reflexivity. Qed.

Lemma rstrip_all p r t :
  Forall (fun c => p c = true) t -> rstrip p (r ++ t) = rstrip p r.
Proof.
  intros F. unfold rstrip. rewrite rev_app_distr.
  rewrite dropwhile_all by (apply Forall_rev; exact F). reflexivity.
Qed.

Lemma rstrip_length p s : length (rstrip p s) <= length s.
Proof.
  destruct (rstrip_split p s) as [t [E _]].
  rewrite E at 2. rewrite length_app. lia.
Qed.

Lemma rstrip_In p s x : In x (rstrip p s) -> In x s.
Proof.
  destruct (rstrip_split p s) as [t [E _]]. intros H.
  rewrite E. apply in_or_app; auto.
Qed.

Lemma dropwhile_In p s x : In x (dropwhile p s) -> In x s.
Proof.
  destruct (dropwhile_split p s) as [t [E _]]. intros H.
  rewrite E. apply in_or_app; auto.
Qed.

Lemma prefix_refl s : prefix_of s s.
Proof. exists []; rewrite app_nil_r; reflexivity. Qed.

Lemma prefix_trans a b c : prefix_of a b -> prefix_of b c -> prefix_of a c.
Proof.
  intros [t ->] [u ->]. exists (t ++ u). rewrite app_assoc; reflexivity.
Qed.

Lemma rstrip_prefix p s : prefix_of (rstrip p s) s.
Proof. destruct (rstrip_split p s) as [t [E _]]; exists t; exact E. Qed.

Lemma firstn_prefix n (s : str) : prefix_of (firstn n s) s.
Proof. exists (skipn n s). symmetry; apply firstn_skipn. Qed.

Lemma prefix_length a s : prefix_of a s -> length a <= length s.
Proof. intros [t ->]. rewrite length_app; lia. Qed.

End PyStrFacts.
Import PyStrFacts.

(** ** Sanitization *)

Module SanitizeFacts.

Lemma forbidden_UNDERSCORE : forbidden UNDERSCORE = false.
Proof. reflexivity. Qed.

Lemma forbidden_SPACE : forbidden SPACE = false.
Proof. reflexivity. Qed.

Lemma no_forbidden_replace s : no_forbidden (replace_forbidden s).
Proof.
  unfold no_forbidden, replace_forbidden. apply Forall_map.
  apply Forall_forall. intros c _.
  destruct (forbidden c) eqn:E; [apply forbidden_UNDERSCORE | exact E].
Qed.

Lemma replace_forbidden_id s : no_forbidden s -> replace_forbidden s = s.
Proof.
  unfold no_forbidden, replace_forbidden.
  induction 1 as [|c r Hc _ IH]; simpl; [reflexivity|].
  rewrite Hc, IH; reflexivity.
Qed.

Lemma collapse_ws_In s x :
  In x (collapse_ws s) -> x = SPACE \/ In x s.
Proof.
  induction s as [|c r IH]; simpl; [tauto|].
  destruct (is_space c).
  - destruct r as [|c' r'].
    + simpl; intuition.
    + destruct (is_space c'); [intros H; apply IH in H; tauto|].
      intros [H|H]; [auto | apply IH in H; tauto].
  - intros [H|H]; [auto | apply IH in H; tauto].
Qed.

Lemma no_forbidden_collapse s : no_forbidden s -> no_forbidden (collapse_ws s).
Proof.
  unfold no_forbidden. rewrite !Forall_forall. intros H x Hx.
  apply collapse_ws_In in Hx. destruct Hx as [-> | Hx];
    [apply forbidden_SPACE | auto].
Qed.

Lemma no_forbidden_prefix a s : prefix_of a s -> no_forbidden s -> no_forbidden a.
Proof.
  intros [t ->]. unfold no_forbidden. intros H.
  apply Forall_app in H. tauto.
Qed.

Lemma no_forbidden_dropwhile p s : no_forbidden s -> no_forbidden (dropwhile p s).
Proof.
  unfold no_forbidden. rewrite !Forall_forall. intros H x Hx.
  apply H. eapply dropwhile_In; eauto.
Qed.

Lemma collapsed_collapse s : collapsed (collapse_ws s).
Proof.
  induction s as [|c r IH]; simpl; auto.
  destruct (is_space c) eqn:E.
  - destruct r as [|c' r'].
    + simpl. split; auto.
    + destruct (is_space c') eqn:E'; [exact IH|].
      split; [|exact IH]. intros _. split; [reflexivity|].
      simpl. rewrite E'. exact E'.
  - split; [|exact IH]. intros H; congruence.
Qed.

Lemma collapse_ws_id s : collapsed s -> collapse_ws s = s.
Proof.
  induction s as [|c r IH]; simpl; auto.
  intros [Hc Hr]. destruct (is_space c) eqn:E.
  - destruct (Hc eq_refl) as [-> Hn].
    destruct r as [|c' r']; [reflexivity|].
    rewrite Hn. f_equal. apply IH; exact Hr.
  - f_equal. apply IH; exact Hr.
Qed.

Lemma collapsed_app_r a b : collapsed (a ++ b) -> collapsed b.
Proof. induction a as [|c a IH]; simpl; [auto | intros [_ H]; auto]. Qed.

Lemma collapsed_app_l a b : collapsed (a ++ b) -> collapsed a.
Proof.
  induction a as [|c a IH]; simpl; auto.
  intros [Hc Hr]. split; [|auto].
  intros E. destruct (Hc E) as [-> Hn]. split; [reflexivity|].
  destruct a; simpl in *; auto.
Qed.

Lemma collapsed_prefix a s : prefix_of a s -> collapsed s -> collapsed a.
Proof. intros [t ->]. apply collapsed_app_l. Qed.

Lemma collapsed_dropwhile p s : collapsed s -> collapsed (dropwhile p s).
Proof.
  destruct (dropwhile_split p s) as [t [E _]]. intros H.
  rewrite E in H. eapply collapsed_app_r; eauto.
Qed.

(** In a collapsed string the only whitespace is the plain space. *)
Lemma collapsed_space s x :
  collapsed s -> In x s -> is_space x = true -> x = SPACE.
Proof.
  induction s as [|c r IH]; simpl; [tauto|].
  intros [Hc Hr] [->|Hx] E; [apply Hc; exact E | auto].
Qed.

Lemma starts_clean_prefix a s :
  prefix_of a s -> starts_clean s -> starts_clean a.
Proof. intros [t ->]. destruct a; simpl; auto. Qed.

Lemma starts_clean_lstrip s : starts_clean (lstrip is_space s).
Proof.
  unfold lstrip. destruct (dropwhile_head is_space s) as [E|[c [r [E H]]]];
    rewrite E; simpl; auto.
Qed.

(** The cleaned form: what the first three steps guarantee. *)
Lemma cleaned_props s :
  no_forbidden (cleaned s) /\ collapsed (cleaned s)
  /\ starts_clean (cleaned s).
Proof.
  unfold cleaned, strip.
  set (u := collapse_ws (replace_forbidden s)).
  assert (Hn : no_forbidden u)
    by (apply no_forbidden_collapse, no_forbidden_replace).
  assert (Hc : collapsed u) by apply collapsed_collapse.
  pose proof (rstrip_prefix is_space (lstrip is_space u)) as Hp.
  split; [|split].
  - eapply no_forbidden_prefix; [exact Hp|].
    apply no_forbidden_dropwhile; exact Hn.
  - eapply collapsed_prefix; [exact Hp|].
    apply collapsed_dropwhile; exact Hc.
  - eapply starts_clean_prefix; [exact Hp|]. apply starts_clean_lstrip.
Qed.

Lemma strip_id s :
  starts_clean s -> (s = [] \/ ends_clean s) -> strip s = s.
Proof.
  intros Hs He. unfold strip, lstrip.
  destruct s as [|c r]; [reflexivity|].
  simpl in Hs. rewrite dropwhile_keep by exact Hs.
  destruct He as [He | [r' [c' [E [Hc' _]]]]]; [discriminate|].
  rewrite E. apply rstrip_keep; exact Hc'.
Qed.

Lemma dot_or_space_ws c :
  is_dot_or_space c = false -> (is_space c = true -> c = SPACE) ->
  is_space c = false /\ c <> DOT.
Proof.
  unfold is_dot_or_space. intros H Hs. char_bools. split.
  - destruct (is_space c); [exfalso; auto | reflexivity].
  - assumption.
Qed.

Lemma ends_clean_dot_or_space c :
  is_space c = false -> c <> DOT -> is_dot_or_space c = false.
Proof.
  intros Hs Hd. unfold is_dot_or_space.
  apply orb_false_iff. split; apply N.eqb_neq; [|exact Hd].
  intros ->. rewrite is_space_SPACE in Hs. discriminate.
Qed.

(** A clean stem is a fixed point of [sanitize_filename]. *)
Lemma sanitize_filename_clean now s :
  clean_stem s -> sanitize_filename now s = s.
Proof.
  intros (Hf & Hc & Hs & He & Hl).
  unfold sanitize_filename, sanitize_filename_len, cleaned.
  rewrite (replace_forbidden_id _ Hf), (collapse_ws_id _ Hc).
  rewrite (strip_id _ Hs (or_intror He)).
  replace (max_len_default <? length s) with false
    by (symmetry; apply Nat.ltb_ge; exact Hl).
  destruct He as [r [c [E [Hsp Hd]]]]. rewrite E.
  rewrite rstrip_keep by (apply ends_clean_dot_or_space; assumption).
  destruct r; reflexivity.
Qed.

(** *** The timestamp stems are clean *)

Lemma digit_bounds n : (48 <= digit n <= 57)%N.
Proof.
  unfold digit.
  assert (n mod 10 < 10)%N by (apply N.mod_upper_bound; discriminate).
  generalize dependent (n mod 10)%N. intros; lia.
Qed.

Lemma digit_not_space n : is_space (digit n) = false.
Proof. pose proof (digit_bounds n). class_false is_space. Qed.

Lemma digit_not_forbidden n : forbidden (digit n) = false.
Proof. pose proof (digit_bounds n). class_false forbidden. Qed.

Lemma digit_not_DOT n : digit n <> DOT.
Proof. pose proof (digit_bounds n). unfold DOT. lia. Qed.

#[local] Arguments digit : simpl never.

Lemma ends_clean_app a b : ends_clean b -> ends_clean (a ++ b).
Proof.
  intros (r & c & -> & H). exists (a ++ r), c.
  rewrite app_assoc. auto.
Qed.

Lemma ends_clean_dec2 n : ends_clean (dec2 n).
Proof.
  exists [digit (n / 10)], (digit n). repeat split.
  - apply digit_not_space.
  - apply digit_not_DOT.
Qed.

Lemma ends_clean_hms t : ends_clean (hms t).
Proof. unfold hms. do 4 apply ends_clean_app. apply ends_clean_dec2. Qed.

Ltac stamp_unfold :=
  unfold stamp_fallback, stamp_title, stamp_ensure, ymd, hms, dec4, dec2;
  change (lit "Chat_") with [67; 104; 97; 116; 95]%N;
  change (lit "Chat ") with [67; 104; 97; 116; 32]%N;
  cbn [app].

Ltac stamp_forall :=
  unfold no_forbidden; stamp_unfold;
  repeat constructor; apply digit_not_forbidden.

Ltac stamp_collapsed :=
  stamp_unfold;
  cbn [collapsed]; repeat (first [split | intros ?E]);
  first [ exact I | reflexivity | apply digit_not_space
        | exfalso;
          match goal with
          | E : is_space _ = true |- _ =>
              first [ rewrite digit_not_space in E | vm_compute in E ];
              discriminate
          end ].

Ltac stamp_clean :=
  unfold clean_stem; split; [|split; [|split; [|split]]];
  [ stamp_forall | stamp_collapsed | reflexivity
  | do 3 apply ends_clean_app; apply ends_clean_hms
  | stamp_unfold; cbn [length]; unfold max_len_default; lia ].

Lemma stamp_fallback_clean t : clean_stem (stamp_fallback t).
Proof. stamp_clean. Qed.

Lemma stamp_title_clean t : clean_stem (stamp_title t).
Proof. stamp_clean. Qed.

Lemma stamp_ensure_clean t : clean_stem (stamp_ensure t).
Proof. stamp_clean. Qed.

(** Every result of [sanitize_filename] is a clean stem. *)
Lemma sanitize_filename_is_clean now s :
  clean_stem (sanitize_filename now s).
Proof.
  unfold sanitize_filename, sanitize_filename_len.
  destruct (cleaned_props s) as (Hf & Hc & Hs).
  set (c2 := cleaned s) in *.
  set (c3 := if max_len_default <? length c2
             then rstrip is_space (firstn max_len_default c2) else c2).
  assert (H3 : prefix_of c3 c2 /\ length c3 <= max_len_default).
  { unfold c3. destruct (max_len_default <? length c2) eqn:E.
    - split.
      + eapply prefix_trans; [apply rstrip_prefix | apply firstn_prefix].
      + etransitivity; [apply rstrip_length|]. apply firstn_le_length.
    - split; [apply prefix_refl | apply Nat.ltb_ge; exact E]. }
  destruct H3 as [P3 L3].
  pose proof (rstrip_prefix is_dot_or_space c3) as P4.
  destruct (rstrip_last is_dot_or_space c3) as [E | (r & c & E & Hd)];
    rewrite E in *.
  - apply stamp_fallback_clean.
  - assert (P : prefix_of (r ++ [c]) c2) by (eapply prefix_trans; eauto).
    replace (match r ++ [c] with [] => stamp_fallback now | _ :: _ => r ++ [c] end)
      with (r ++ [c]) by (destruct r; reflexivity).
    assert (Hin : In c c2).
    { destruct P as [t ->]. apply in_or_app; left.
      apply in_or_app; right; left; reflexivity. }
    destruct (dot_or_space_ws c Hd (collapsed_space c2 c Hc Hin)) as [Hsp Hdot].
    repeat apply conj.
    + eapply no_forbidden_prefix; eauto.
    + eapply collapsed_prefix; eauto.
    + eapply starts_clean_prefix; eauto.
    + exists r, c; auto.
    + pose proof (prefix_length _ _ P4). lia.
Qed.

Lemma sanitize_filename_nonempty now s : sanitize_filename now s <> [].
Proof.
  destruct (sanitize_filename_is_clean now s) as (_ & _ & _ & He & _).
  destruct He as (r & c & E & _). rewrite E. destruct r; discriminate.
Qed.

(** Where the cleaned form fits and is not empty, the cut and the
    fallback of [sanitize_filename] do nothing. *)
Lemma sanitize_filename_eq_sanitize (now : datetime) (s : str) :
  _sanitize s <> [] ->
  length (_sanitize s) <= 200 ->
  sanitize_filename now s = _sanitize s.
Proof.
  unfold _sanitize, sanitize_filename, sanitize_filename_len.
  destruct (cleaned_props s) as (_ & Hc & _).
  set (c2 := cleaned s) in *. intros Hne Hlen.
  assert (E3 : rstrip is_dot_or_space
                 (if max_len_default <? length c2
                  then rstrip is_space (firstn max_len_default c2)
                  else c2)
               = rstrip is_dot_or_space c2).
  { destruct (max_len_default <? length c2) eqn:E; [|reflexivity].
    destruct (rstrip_split is_dot_or_space c2) as (t & Et & Ft).
    destruct (rstrip_last is_dot_or_space c2) as [E0 | (r & c & Er & Hd)];
      [contradiction|].
    set (k := rstrip is_dot_or_space c2) in *.
    assert (Hin : In c c2).
    { rewrite Et, Er. apply in_or_app; left.
      apply in_or_app; right; left; reflexivity. }
    destruct (dot_or_space_ws c Hd (collapsed_space c2 c Hc Hin))
      as [Hsp _].
    (* the cut keeps all of [k] and a piece of the stripped tail *)
    rewrite Et at 1. rewrite firstn_app.
    rewrite (firstn_all2 k) by (unfold max_len_default; exact Hlen).
    set (t' := firstn (max_len_default - length k) t).
    assert (Ft' : Forall (fun c => is_dot_or_space c = true) t').
    { apply Forall_forall. intros x Hx.
      rewrite Forall_forall in Ft. apply Ft.
      destruct (firstn_prefix (max_len_default - length k) t) as [w Ew].
      rewrite Ew. apply in_or_app; left; exact Hx. }
    destruct (rstrip_split is_space (k ++ t')) as (u & Eu & Fu).
    (* the whitespace strip cannot eat into [k] *)
    assert (Hk : exists t'', rstrip is_space (k ++ t') = k ++ t''
                            /\ Forall (fun c => is_dot_or_space c = true) t'').
    { clear Eu Fu u. induction t' as [|x t' IH] using rev_ind.
      - exists []. rewrite !app_nil_r. split; [|constructor].
        rewrite Er. apply rstrip_keep; exact Hsp.
      - apply Forall_app in Ft'. destruct Ft' as [Ft1 Ft2].
        destruct (is_space x) eqn:Ex.
        + rewrite app_assoc.
          rewrite rstrip_all by (constructor; [exact Ex|constructor]).
          apply IH; exact Ft1.
        + exists (t' ++ [x]). split.
          * rewrite app_assoc. apply rstrip_keep; exact Ex.
          * apply Forall_app; auto. }
    destruct Hk as (t'' & -> & Ft'').
    rewrite rstrip_all by exact Ft''.
    rewrite Er. apply rstrip_keep; exact Hd. }
  rewrite E3. destruct (rstrip is_dot_or_space c2); [contradiction | reflexivity].
Qed.


(** A clean stem is a fixed point of [_sanitize] too. *)
Lemma _sanitize_clean s : clean_stem s -> _sanitize s = s.
Proof.
  intros (Hf & Hc & Hs & He & Hl). unfold _sanitize, cleaned.
  rewrite (replace_forbidden_id _ Hf), (collapse_ws_id _ Hc).
  rewrite (strip_id _ Hs (or_intror He)).
  destruct He as [r [c [E [Hsp Hd]]]]. rewrite E.
  apply rstrip_keep, ends_clean_dot_or_space; assumption.
Qed.

End SanitizeFacts.
Import SanitizeFacts.

Module SanitizeTheorems.

(** Some concrete runs of the two sanitizers. *)
Import Fixtures.

Example sanitize_filename_ex1 :
  sanitize_filename t0 (lit "  my/chat:  v1. ") = lit "my_chat_ v1".
Proof. vm_compute. reflexivity. Qed.

Example sanitize_filename_ex2 :
  sanitize_filename t0 (lit " .. ") = lit "Chat_2025-11-23_09-05-07".
Proof. vm_compute. reflexivity. Qed.

Example _sanitize_ex2 : _sanitize (lit " .. ") = [].
Proof. vm_compute. reflexivity. Qed.

Example sanitize_filename_ex3 :
  sanitize_filename_len 3 t0 (lit "ab cd") = lit "ab".
Proof. vm_compute. reflexivity. Qed.

(** C10.  [sanitize_filename] is idempotent: sanitizing a sanitized
    stem again (at any later clock reading [now']) gives it back
    unchanged, because every result is non-empty, has no forbidden
    character, has only single plain spaces and none at either end, and
    ends in neither a space nor a dot. *)
Theorem sanitize_filename_idempotent (now now' : datetime) (s : str) :
  let out := sanitize_filename now s in
  sanitize_filename now' out = out
  /\ out <> []
  /\ no_forbidden out
  /\ collapsed out /\ starts_clean out
  /\ ends_clean out.
Proof.
  intros out. pose proof (sanitize_filename_is_clean now s) as H.
  fold out in H. split; [apply sanitize_filename_clean; exact H|].
  destruct H as (Hf & Hc & Hs & He & Hl). repeat split; auto.
  apply sanitize_filename_nonempty.
Qed.

End SanitizeTheorems.

(** ** File system *)

Module FSFacts.

Lemma path_eqb_eq (a b : Path) : path_eqb a b = true <-> a = b.
Proof.
  revert b; induction a as [|x a IH]; intros [|y b]; simpl;
    try (split; (discriminate || reflexivity)).
  rewrite andb_true_iff, str_eqb_eq, IH. split.
  - intros [-> ->]; reflexivity.
  - intros H; inversion H; auto.
Qed.

Lemma path_eqb_refl (a : Path) : path_eqb a a = true.
Proof. apply path_eqb_eq; reflexivity. Qed.

Lemma path_eqb_neq (a b : Path) : path_eqb a b = false <-> a <> b.
Proof.
  rewrite <- path_eqb_eq. destruct (path_eqb a b); split; congruence.
Qed.

Lemma path_eqb_sym (a b : Path) : path_eqb a b = path_eqb b a.
Proof.
  destruct (path_eqb a b) eqn:E; symmetry.
  - apply path_eqb_eq. apply path_eqb_eq in E. auto.
  - apply path_eqb_neq. apply path_eqb_neq in E. auto.
Qed.

Lemma assoc_In (f : fs) (p : Path) :
  In p (map fst f) -> exists n, assoc f p = Some n.
Proof.
  induction f as [|[k n] r IH]; simpl; [tauto|].
  intros H. destruct (path_eqb k p) eqn:E; [eauto|].
  destruct H as [H|H]; [|auto].
  subst k. rewrite path_eqb_refl in E. discriminate.
Qed.

Lemma fs_exists_In (f : fs) (p : Path) :
  In p (map fst f) -> fs_exists f p = true.
Proof.
  intros H. unfold fs_exists, fs_lookup.
  destruct p as [|c p']; [reflexivity|].
  destruct (path_eqb (c :: p') [ROOT]); [reflexivity|].
  destruct (assoc_In f _ H) as [n ->]. reflexivity.
Qed.

(** What [glob] lists is there. *)
Lemma glob_json_exists (f : fs) (dir p : Path) :
  In p (glob_json f dir) -> fs_exists f p = true.
Proof.
  unfold glob_json. destruct (fs_is_dir f dir); [|contradiction].
  intros H. apply fs_exists_In.
  apply in_map_iff in H. destruct H as [e [<- He]].
  apply filter_In in He. apply in_map. tauto.
Qed.

Lemma glob_json_parent (f : fs) (dir p : Path) :
  In p (glob_json f dir) -> parent p = dir /\ p <> [].
Proof.
  unfold glob_json. destruct (fs_is_dir f dir); [|contradiction].
  intros H.
  apply in_map_iff in H. destruct H as [e [<- He]].
  apply filter_In in He. destruct He as [_ He].
  apply andb_true_iff in He. destruct He as [He _].
  apply andb_true_iff in He. destruct He as [H1 H2].
  apply path_eqb_eq in H2. split; [exact H2|].
  intros E. rewrite E in H1. discriminate.
Qed.

End FSFacts.
Import FSFacts.

(** ** Paths of plain names, and look-ups after an update *)

Module PathFacts.

Lemma split_on_plain s : plain s -> split_on SLASH s = [s].
Proof.
  induction 1 as [|c r Hc _ IH]; simpl; [reflexivity|].
  destruct (N.eqb_spec c SLASH) as [E|_]; [contradiction|].
  rewrite IH. reflexivity.
Qed.

Lemma parse_path_plain s :
  plain s -> s <> [] -> s <> [DOT] -> parse_path s = [s].
Proof.
  intros Hp Hne Hd. unfold parse_path.
  rewrite (split_on_plain s Hp).
  assert (Ha : is_absolute s = false).
  { destruct s as [|c r]; [reflexivity|]. simpl.
    inversion Hp; subst. apply N.eqb_neq; assumption. }
  rewrite Ha. cbn [app filter].
  apply str_eqb_neq in Hd. rewrite Hd.
  destruct s as [|c r]; [contradiction | reflexivity].
Qed.

Lemma pjoin_plain dir s :
  plain s -> s <> [] -> s <> [DOT] -> pjoin dir s = dir ++ [s].
Proof.
  intros Hp Hne Hd. unfold pjoin.
  rewrite (parse_path_plain s Hp Hne Hd).
  destruct s as [|c r]; [contradiction|]. cbn [is_absolute].
  inversion Hp; subst.
  destruct (N.eqb_spec c SLASH); [contradiction | reflexivity].
Qed.

Lemma plain_app a b : plain a -> plain b -> plain (a ++ b).
Proof. intros; apply Forall_app; auto. Qed.

Lemma no_forbidden_plain s : no_forbidden s -> plain s.
Proof.
  unfold no_forbidden, plain. apply Forall_impl.
  intros c H ->. discriminate.
Qed.

Lemma plain_JSON_EXT : plain JSON_EXT.
Proof. repeat constructor; discriminate. Qed.

Lemma digit_plain n : digit n <> SLASH.
Proof. pose proof (digit_bounds n). unfold SLASH. lia. Qed.

Lemma plain_stamp_compact t : plain (stamp_compact t).
Proof.
  unfold stamp_compact, dec4, dec2. cbn [app].
  repeat constructor; apply digit_plain.
Qed.

(** A file name made of a stem and the extension. *)
Lemma json_name_shape dir s :
  plain s -> pjoin dir (s ++ JSON_EXT) = dir ++ [s ++ JSON_EXT].
Proof.
  intros Hp. apply pjoin_plain.
  - apply plain_app; [exact Hp | apply plain_JSON_EXT].
  - destruct s; discriminate.
  - intros E. apply (f_equal (@length _)) in E.
    rewrite length_app in E. simpl in E. lia.
Qed.

Lemma name_snoc dir s : name (dir ++ [s]) = s.
Proof. unfold name. apply last_last. Qed.

Lemma parent_snoc dir s : parent (dir ++ [s]) = dir.
Proof. unfold parent. apply removelast_last. Qed.

Lemma rfind_app x s t i :
  rfind x t = Some i -> rfind x (s ++ t) = Some (length s + i).
Proof.
  intros H. induction s as [|c r IH]; simpl; [exact H|].
  rewrite IH. reflexivity.
Qed.

(** The stem of [s.json] is [s], for a non-empty [s]. *)
Lemma stem_json dir s : s <> [] -> stem (dir ++ [s ++ JSON_EXT]) = s.
Proof.
  intros Hne. unfold stem. rewrite name_snoc. unfold stem_of_name.
  rewrite (rfind_app DOT s JSON_EXT 0) by reflexivity.
  rewrite Nat.add_0_r, length_app.
  assert (0 < length s) by (destruct s; [contradiction | simpl; lia]).
  replace (0 <? length s) with true by (symmetry; apply Nat.ltb_lt; lia).
  replace (length s <? length s + length JSON_EXT - 1) with true
    by (symmetry; apply Nat.ltb_lt; simpl; lia).
  simpl. rewrite firstn_app, firstn_all, Nat.sub_diag. simpl.
  apply app_nil_r.
Qed.

Lemma fs_lookup_assoc f p :
  ~ special p -> fs_lookup f p = assoc f p.
Proof.
  unfold special, fs_lookup. intros H.
  destruct p as [|c r]; [tauto|].
  destruct (path_eqb (c :: r) [ROOT]) eqn:E; [|reflexivity].
  apply path_eqb_eq in E. tauto.
Qed.

Lemma fs_lookup_special f g p : special p -> fs_lookup f p = fs_lookup g p.
Proof. intros [-> | ->]; reflexivity. Qed.

Lemma fs_lookup_file_not_special f p c :
  fs_lookup f p = Some (File c) -> ~ special p.
Proof. intros H [-> | ->]; discriminate. Qed.

Lemma fs_lookup_none_not_special f p :
  fs_lookup f p = None -> ~ special p.
Proof. intros H [-> | ->]; discriminate. Qed.

Lemma assoc_remove_same f p : assoc (fs_remove f p) p = None.
Proof.
  unfold fs_remove. induction f as [|[k n] r IH]; simpl; [reflexivity|].
  destruct (path_eqb k p) eqn:E; simpl; [exact IH|].
  rewrite E. exact IH.
Qed.

Lemma assoc_remove_other f p q :
  q <> p -> assoc (fs_remove f p) q = assoc f q.
Proof.
  intros Hne. unfold fs_remove.
  induction f as [|[k n] r IH]; simpl; [reflexivity|].
  destruct (path_eqb k p) eqn:E; simpl.
  - apply path_eqb_eq in E. subst k.
    destruct (path_eqb p q) eqn:E'; [|exact IH].
    apply path_eqb_eq in E'. congruence.
  - destruct (path_eqb k q); [reflexivity | exact IH].
Qed.

Lemma assoc_put_same f p n : assoc (fs_put f p n) p = Some n.
Proof. unfold fs_put. simpl. rewrite path_eqb_refl. reflexivity. Qed.

Lemma assoc_put_other f p n q :
  q <> p -> assoc (fs_put f p n) q = assoc f q.
Proof.
  intros Hne. unfold fs_put. simpl.
  destruct (path_eqb p q) eqn:E.
  - apply path_eqb_eq in E. congruence.
  - apply assoc_remove_other; exact Hne.
Qed.

Lemma fs_lookup_remove_same f p :
  ~ special p -> fs_lookup (fs_remove f p) p = None.
Proof. intros H. rewrite fs_lookup_assoc by exact H. apply assoc_remove_same. Qed.

Lemma fs_lookup_remove_other f p q :
  q <> p -> fs_lookup (fs_remove f p) q = fs_lookup f q.
Proof.
  intros Hne. unfold fs_lookup. destruct q; [reflexivity|].
  destruct (path_eqb _ [ROOT]); [reflexivity|].
  apply assoc_remove_other; exact Hne.
Qed.

Lemma fs_lookup_put_same f p n :
  ~ special p -> fs_lookup (fs_put f p n) p = Some n.
Proof. intros H. rewrite fs_lookup_assoc by exact H. apply assoc_put_same. Qed.

Lemma fs_lookup_put_other f p n q :
  q <> p -> fs_lookup (fs_put f p n) q = fs_lookup f q.
Proof.
  intros Hne. unfold fs_lookup. destruct q; [reflexivity|].
  destruct (path_eqb _ [ROOT]); [reflexivity|].
  apply assoc_put_other; exact Hne.
Qed.

Lemma snoc_not_special dir s : plain s -> ~ special (dir ++ [s]).
Proof.
  intros Hp [E | E].
  - destruct dir; discriminate.
  - destruct dir as [|d dir].
    + simpl in E. inversion E; subst.
      inversion Hp; subst. congruence.
    + destruct dir; discriminate.
Qed.

End PathFacts.
Import PathFacts.

(** ** What a system call can add to the regular files *)

Module FrameFacts.

Lemma fs_lookup_put_cases f p n q v :
  fs_lookup (fs_put f p n) q = Some v ->
  (q = p /\ v = n) \/ fs_lookup f q = Some v.
Proof.
  intros H. destruct (path_eqb q p) eqn:E.
  - apply path_eqb_eq in E. subst q.
    destruct p as [|c r]; [right; exact H|].
    unfold fs_lookup in *.
    destruct (path_eqb (c :: r) [ROOT]); [right; exact H|].
    rewrite assoc_put_same in H. left. split; congruence.
  - apply path_eqb_neq in E. rewrite fs_lookup_put_other in H by exact E.
    right; exact H.
Qed.

Lemma os_write_files f p j f' q x :
  os_write f p j = Some f' ->
  fs_lookup f' q = Some (File x) ->
  q = p \/ fs_lookup f q = Some (File x).
Proof.
  unfold os_write. destruct (_ && _); [|discriminate].
  intros E H. inversion E; subst f'.
  apply fs_lookup_put_cases in H. tauto.
Qed.

Lemma os_write_read f p j f' :
  os_write f p j = Some f' -> read_json f' p = Some j.
Proof.
  unfold os_write. destruct (fs_is_dir f (parent p)); [|discriminate].
  destruct (fs_is_dir f p) eqn:Ed; [discriminate|]. cbn [negb andb].
  intros E; inversion E; subst f'. unfold read_json.
  rewrite fs_lookup_put_same; [reflexivity|].
  intros [-> | ->]; discriminate.
Qed.

Lemma os_write_ok f p j :
  fs_is_dir f (parent p) = true -> fs_is_dir f p = false ->
  os_write f p j = Some (fs_put f p (File (Some j))).
Proof. intros H1 H2. unfold os_write. rewrite H1, H2. reflexivity. Qed.

Lemma os_mkdir_files f p f' q x :
  os_mkdir f p = Some f' ->
  fs_lookup f' q = Some (File x) -> fs_lookup f q = Some (File x).
Proof.
  unfold os_mkdir. destruct (fs_lookup f p) as [[c|]|].
  - discriminate.
  - intros E; inversion E; subst; auto.
  - destruct (fs_is_dir f (parent p)); [|discriminate].
    intros E H. inversion E; subst f'.
    apply fs_lookup_put_cases in H. destruct H as [[_ H]|H];
      [discriminate | exact H].
Qed.

Lemma mkdir_from_files rest : forall f made f' q x,
  mkdir_from f made rest = Some f' ->
  fs_lookup f' q = Some (File x) -> fs_lookup f q = Some (File x).
Proof.
  induction rest as [|c rest IH]; simpl; intros f made f' q x E H.
  - inversion E; subst; exact H.
  - destruct (os_mkdir f (made ++ [c])) as [f1|] eqn:E1; [|discriminate].
    eapply os_mkdir_files; [exact E1|]. eapply IH; eauto.
Qed.

Lemma os_mkdir_parents_files f p f' q x :
  os_mkdir_parents f p = Some f' ->
  fs_lookup f' q = Some (File x) -> fs_lookup f q = Some (File x).
Proof. apply mkdir_from_files. Qed.

End FrameFacts.
Import FrameFacts.

(** ** Resolution of a chat title to its file *)

Module ResolveTheorems.

Import Controller Fixtures.

Lemma fs_is_dir_exists f p : fs_is_dir f p = true -> fs_exists f p = true.
Proof.
  unfold fs_is_dir, fs_exists. destruct (fs_lookup f p); congruence.
Qed.

Lemma json_is_str_eq v s : json_is_str v s = true <-> v = JStr s.
Proof.
  destruct v; simpl; try (split; discriminate).
  rewrite str_eqb_eq. split; [intros ->; reflexivity | congruence].
Qed.

(** The test the code makes on a loaded file. *)
Lemma title_matches_iff data title :
  title_matches data title = true <->
  exists d, data = Some (JObj d) /\ title_field d = JStr title.
Proof.
  unfold title_matches. split.
  - destruct data as [[| | | | |d]|]; try discriminate.
    intros H. apply json_is_str_eq in H. eauto.
  - intros (d & -> & H). apply json_is_str_eq. exact H.
Qed.

(** For a non-empty title the object has to hold it in a [title]
    field. *)
Lemma title_field_present d title :
  title <> [] ->
  (title_field d = JStr title
   <-> dict_lookup d (lit "title") = Some (JStr title)).
Proof.
  intros Hne. unfold title_field, dict_get.
  destruct (dict_lookup d (lit "title")) as [v|]; split; intros H;
    congruence.
Qed.

Section Lower.

Variable lower : str -> str.

(** C2.  For every folder directory and chat title,
    [resolve_chat_file] returns an existing path matched by one of
    its four strategies (exact name, sanitized name, a listed file
    whose sanitized stem equals the sanitized title up to case, a
    listed file whose JSON object has that title as its [title]
    field) whenever any path is matched by one of them; otherwise it
    returns the path [folder/title.json], which does not exist.  The
    [title] field is read as the code reads it, with the empty string
    for an object that has none. *)
Theorem resolve_chat_file_resolves (f : fs) (folder chat_title : str) :
  fs_is_dir f (pjoin CHAT_HISTORY folder) = true ->
  let r := resolve_chat_file lower f folder chat_title in
  (strategy lower f folder chat_title r /\ fs_exists f r = true)
  \/ ((forall p, ~ strategy lower f folder chat_title p)
      /\ r = pjoin (pjoin CHAT_HISTORY folder) (chat_title ++ JSON_EXT)
      /\ fs_exists f r = false).
Proof.
  intros Hdir. unfold resolve_chat_file.
  rewrite Hdir, (fs_is_dir_exists _ _ Hdir). cbn [negb orb].
  set (folder_path := pjoin CHAT_HISTORY folder).
  destruct (fs_exists f (pjoin folder_path (chat_title ++ JSON_EXT)))
    eqn:E1.
  { left. split; [|exact E1]. apply by_exact_name; auto. }
  destruct (fs_exists f (pjoin folder_path
                               (_sanitize chat_title ++ JSON_EXT)))
    eqn:E2.
  { left. split; [|exact E2]. apply by_sanitized_name; auto. }
  destruct (find _ (glob_json f folder_path)) as [p|] eqn:E3.
  { apply find_some in E3. destruct E3 as [Hin Hp].
    apply str_eqb_eq in Hp. left. split.
    - apply by_normalized_stem; auto.
    - eapply glob_json_exists; eauto. }
  destruct (find (fun p => title_matches (read_json f p) chat_title)
                 (glob_json f folder_path)) as [p|] eqn:E4.
  { apply find_some in E4. destruct E4 as [Hin Hp].
    apply title_matches_iff in Hp. left. split.
    - apply by_title_field; auto.
    - eapply glob_json_exists; eauto. }
  right. split; [|split; [reflexivity | exact E1]].
  intros p [-> Hp | -> Hp | Hin Hp | Hin Hp].
  - fold folder_path in Hp. congruence.
  - fold folder_path in Hp. congruence.
  - pose proof (find_none _ _ E3 p Hin) as Hf. cbv beta in Hf.
    rewrite Hp, str_eqb_refl in Hf. discriminate.
  - pose proof (find_none _ _ E4 p Hin) as Hf. cbv beta in Hf.
    apply title_matches_iff in Hp. congruence.
Qed.

End Lower.

(** A chat whose file name drifted from its title is found through the
    title stored in the file. *)
Example resolve_chat_file_drift :
  resolve_chat_file ascii_lower fs_drift (lit "F") (lit "My chat")
  = pjoin folder_F (lit "renamed.json").
Proof. vm_compute. reflexivity. Qed.

Example resolve_chat_file_case :
  resolve_chat_file ascii_lower fs_drift (lit "F") (lit "RENAMED ")
  = pjoin folder_F (lit "renamed.json").
Proof. vm_compute. reflexivity. Qed.

Example resolve_chat_file_missing :
  resolve_chat_file ascii_lower fs_drift (lit "F") (lit "other")
  = pjoin folder_F (lit "other.json").
Proof. vm_compute. reflexivity. Qed.

Lemma resolve_chat_file_resolves_witness :
  fs_is_dir fs_drift (pjoin CHAT_HISTORY (lit "F")) = true
  /\ let r := resolve_chat_file ascii_lower fs_drift (lit "F")
                                (lit "My chat") in
     (strategy ascii_lower fs_drift (lit "F") (lit "My chat") r
      /\ fs_exists fs_drift r = true)
     \/ ((forall p, ~ strategy ascii_lower fs_drift (lit "F")
                               (lit "My chat") p)
         /\ r = pjoin (pjoin CHAT_HISTORY (lit "F"))
                      (lit "My chat" ++ JSON_EXT)
         /\ fs_exists fs_drift r = false).
Proof.
  split; [reflexivity|].
  apply (resolve_chat_file_resolves ascii_lower fs_drift
           (lit "F") (lit "My chat")); reflexivity.
Defined.

End ResolveTheorems.

(** ** Renaming a chat *)

Module RenameTheorems.

Import SidePanel Fixtures ResolveTheorems.

Lemma panel_title_matches_iff data title :
  SidePanel.title_matches data title = true <->
  exists d, data = Some (JObj d) /\ title_field d = JStr title.
Proof. exact (title_matches_iff data title). Qed.

Lemma sanitized_json_shape now dir s :
  pjoin dir (sanitize_filename now s ++ JSON_EXT)
  = dir ++ [sanitize_filename now s ++ JSON_EXT].
Proof.
  apply json_name_shape, no_forbidden_plain.
  apply (sanitize_filename_is_clean now s).
Qed.

Lemma stamped_target_shape now dir s :
  stamped_target now dir (sanitize_filename now s)
  = dir ++ [sanitize_filename now s ++ [UNDERSCORE]
              ++ stamp_compact now ++ JSON_EXT].
Proof.
  unfold stamped_target.
  replace (sanitize_filename now s ++ [UNDERSCORE] ++ stamp_compact now
             ++ JSON_EXT)
    with ((sanitize_filename now s ++ [UNDERSCORE] ++ stamp_compact now)
            ++ JSON_EXT)
    by (rewrite <- !app_assoc; reflexivity).
  apply json_name_shape.
  apply plain_app;
    [apply no_forbidden_plain, (sanitize_filename_is_clean now s)|].
  apply plain_app; [repeat constructor; discriminate|].
  apply plain_stamp_compact.
Qed.

Lemma stamped_target_fresh now dir s :
  stamped_target now dir (sanitize_filename now s)
  <> pjoin dir (sanitize_filename now s ++ JSON_EXT).
Proof.
  rewrite stamped_target_shape, sanitized_json_shape. intros E.
  apply app_inv_head in E. inversion E as [E'].
  apply (f_equal (@length _)) in E'.
  rewrite !length_app in E'. simpl in E'. lia.
Qed.

(** A regular file renamed onto a name that is not a directory, in an
    existing directory. *)
Lemma os_rename_file f src dst c :
  fs_lookup f src = Some (File c) ->
  fs_is_dir f (parent dst) = true ->
  fs_is_dir f dst = false ->
  ~ special dst ->
  exists f',
    os_rename f src dst = Some f'
    /\ fs_lookup f' dst = Some (File c)
    /\ (src <> dst -> fs_lookup f' src = None)
    /\ (forall q, q <> src -> q <> dst -> fs_lookup f' q = fs_lookup f q).
Proof.
  intros Hsrc Hpar Hdst Hsp.
  pose proof (fs_lookup_file_not_special _ _ _ Hsrc) as Hss.
  unfold os_rename.
  rewrite <- (fs_lookup_assoc f src Hss), Hsrc, Hpar, Hdst. cbn [negb orb].
  destruct (path_eqb src dst) eqn:E.
  - apply path_eqb_eq in E. subst dst. exists f. repeat split; auto.
    intros H; contradiction.
  - apply path_eqb_neq in E. eexists. split; [reflexivity|].
    split; [apply fs_lookup_put_same; exact Hsp|]. split.
    + intros _. rewrite fs_lookup_put_other by exact E.
      apply fs_lookup_remove_same; exact Hss.
    + intros q Hq1 Hq2. rewrite fs_lookup_put_other by exact Hq2.
      apply fs_lookup_remove_other; exact Hq1.
Qed.

Section Lower.

Variable lower : str -> str.

Lemma rename_find_some f now dir old new p :
  rename_find lower f now dir old new = Some p ->
  rename_source lower f now dir old new p.
Proof.
  unfold rename_find.
  destruct (find (fs_exists f) _) as [c|] eqn:E1.
  { intros H; inversion H; subst c. apply find_some in E1.
    destruct E1 as [[<- | [<- | []]] Hex].
    - apply src_exact_name; auto.
    - apply src_sanitized_name; auto. }
  destruct (find _ (glob_json f dir)) as [c|] eqn:E2.
  { intros H; inversion H; subst c. apply find_some in E2.
    destruct E2 as [Hin Hp]. apply src_normalized_stem; [exact Hin|].
    apply orb_true_iff in Hp.
    destruct Hp as [Hp|Hp]; apply str_eqb_eq in Hp; auto. }
  intros E3. apply find_some in E3. destruct E3 as [Hin Hp].
  apply src_title_field; [exact Hin|].
  apply panel_title_matches_iff in Hp; auto.
Qed.

Lemma rename_find_none f now dir old new :
  rename_find lower f now dir old new = None ->
  forall p, ~ rename_source lower f now dir old new p.
Proof.
  unfold rename_find.
  destruct (find (fs_exists f) _) as [c|] eqn:E1; [discriminate|].
  destruct (find _ (glob_json f dir)) as [c|] eqn:E2; [discriminate|].
  intros E3 p [-> Hp | -> Hp | Hin Hp | Hin Hp].
  - pose proof (find_none _ _ E1 _ (or_introl eq_refl)). congruence.
  - pose proof (find_none _ _ E1 _ (or_intror (or_introl eq_refl))).
    congruence.
  - pose proof (find_none _ _ E2 p Hin) as Hf. cbv beta zeta in Hf.
    apply orb_false_iff in Hf. destruct Hf as [H1 H2].
    destruct Hp as [Hp|Hp]; rewrite Hp, str_eqb_refl in *; discriminate.
  - pose proof (find_none _ _ E3 p Hin) as Hf. cbv beta in Hf.
    apply panel_title_matches_iff in Hp. congruence.
Qed.

Lemma rename_source_exists f now dir old new p :
  rename_source lower f now dir old new p -> fs_exists f p = true.
Proof.
  intros [-> H | -> H | Hin _ | Hin _]; auto;
    eapply glob_json_exists; eauto.
Qed.

(** C3.  For the row [item] of folder [folder_name], whose directory
    exists, [rename_chat]:
    - leaves the disk unchanged when no file is found by exact
      name, sanitized name, normalized stem or stored title;
    - otherwise has found [chosen] in one of these four ways, and
      leaves the disk unchanged when [chosen] already is
      [sanitize_filename(new_title).json];
    - otherwise, [chosen] being a regular file, moves it to that
      target name, or, when the target name is taken, to the name
      with the time-stamp suffix (when no directory has that name):
      the destination then holds the content of [chosen], [chosen]
      is gone, every other path is as before, and so is the file
      that held the target name. *)
Theorem rename_chat_renames (P : panel) (f : fs) (now : datetime)
    (item : item_id) (old_title new_title folder_name t : str) :
  data_of P item = Some (folder_name, t) ->
  fs_is_dir f (pjoin (storage_root P) folder_name) = true ->
  let folder_path := pjoin (storage_root P) folder_name in
  let new_stem := sanitize_filename now new_title in
  let target := pjoin folder_path (new_stem ++ JSON_EXT) in
  let f' := rename_chat lower P f now item old_title new_title in
  match rename_find lower f now folder_path old_title new_title with
  | None =>
      (forall p, ~ rename_source lower f now folder_path
                     old_title new_title p)
      /\ f' = f
  | Some chosen =>
      rename_source lower f now folder_path old_title new_title chosen
      /\ (chosen = target -> f' = f)
      /\ (forall c,
            chosen <> target ->
            fs_lookup f chosen = Some (File c) ->
            let dest := if fs_exists f target
                        then stamped_target now folder_path new_stem
                        else target in
            fs_is_dir f dest = false ->
            stem dest = (if fs_exists f target
                         then new_stem ++ [UNDERSCORE]
                                ++ stamp_compact now
                         else new_stem)
            /\ fs_lookup f' dest = Some (File c)
            /\ (chosen <> dest -> fs_lookup f' chosen = None)
            /\ (forall q, q <> chosen -> q <> dest ->
                          fs_lookup f' q = fs_lookup f q)
            /\ fs_lookup f' target
               = (if fs_exists f target then fs_lookup f target
                  else Some (File c)))
  end.
Proof.
  intros Hdata Hdir folder_path new_stem target f'.
  assert (Ef' : f' = rename_chat lower P f now item old_title new_title)
    by reflexivity.
  unfold rename_chat in Ef'. rewrite Hdata in Ef'.
  rewrite (fs_is_dir_exists _ _ Hdir) in Ef'. cbn [negb] in Ef'.
  fold folder_path in Ef'.
  fold new_stem in Ef'. fold target in Ef'.
  destruct (rename_find lower f now folder_path old_title new_title)
    as [chosen|] eqn:Ef.
  2:{ split; [apply rename_find_none; assumption | exact Ef']. }
  pose proof (rename_find_some _ _ _ _ _ _ Ef) as Hsrc.
  pose proof (rename_source_exists _ _ _ _ _ _ Hsrc) as Hex.
  split; [exact Hsrc|]. split.
  { intros ->. rewrite Hex, path_eqb_refl in Ef'. exact Ef'. }
  intros c Hne Hfile dest Hnd.
  assert (Hpe : path_eqb target chosen = false)
    by (apply path_eqb_neq; congruence).
  rewrite Hpe, andb_false_r in Ef'. cbn [negb] in Ef'.
  rewrite andb_true_r in Ef'. fold dest in Ef'.
  assert (Hshape : exists nm, dest = folder_path ++ [nm] /\ plain nm
                              /\ stem dest
                                 = (if fs_exists f target
                                    then new_stem ++ [UNDERSCORE]
                                           ++ stamp_compact now
                                    else new_stem)).
  { unfold dest, target, new_stem.
    destruct (fs_exists f _).
    - rewrite stamped_target_shape. eexists. split; [reflexivity|].
      split.
      + apply plain_app;
          [apply no_forbidden_plain,
             (sanitize_filename_is_clean now new_title)|].
        apply plain_app; [repeat constructor; discriminate|].
        apply plain_app; [apply plain_stamp_compact
                         | apply plain_JSON_EXT].
      + rewrite !app_assoc. rewrite <- (app_assoc _ [UNDERSCORE]).
        apply stem_json.
        destruct (sanitize_filename now new_title); discriminate.
    - rewrite sanitized_json_shape. eexists. split; [reflexivity|].
      split.
      + apply plain_app;
          [apply no_forbidden_plain,
             (sanitize_filename_is_clean now new_title)
          | apply plain_JSON_EXT].
      + apply stem_json.
        apply sanitize_filename_nonempty. }
  destruct Hshape as (nm & Hdest & Hplain & Hstem).
  assert (Hsp : ~ special dest)
    by (rewrite Hdest; apply snoc_not_special; exact Hplain).
  assert (Hpar : fs_is_dir f (parent dest) = true)
    by (rewrite Hdest, parent_snoc; exact Hdir).
  destruct (os_rename_file f chosen dest c Hfile Hpar Hnd Hsp)
    as (f1 & Hren & H1 & H2 & H3).
  rewrite Hren in Ef'. subst f1.
  split; [exact Hstem|]. split; [exact H1|]. split; [exact H2|].
  split; [exact H3|].
  unfold dest in *. destruct (fs_exists f target) eqn:Et.
  - apply H3; [congruence|].
    intros E. symmetry in E. revert E. apply stamped_target_fresh.
  - exact H1.
Qed.

End Lower.

(** The session of the fixtures: two chats, two files. *)
Example session_files :
  map fst fs_AB
  = [pjoin folder_F (lit "B.json"); pjoin folder_F (lit "A.json");
     folder_F; Controller.CHAT_HISTORY]
  /\ item_A = 1 /\ item_B = 2
  /\ history_list panel_AB = [0; 1; 2].
Proof. vm_compute. auto. Qed.

(** Renaming [A] to a free title moves the file ... *)
Example rename_chat_free :
  map fst (rename_chat ascii_lower panel_AB fs_AB t0 item_A
             (lit "A") (lit "C?"))
  = [pjoin folder_F (lit "C_.json"); pjoin folder_F (lit "B.json");
     folder_F; Controller.CHAT_HISTORY].
Proof. vm_compute. reflexivity. Qed.

(** ... and renaming it to the title of [B] gives the stamped name. *)
Example rename_chat_collision :
  map fst (rename_chat ascii_lower panel_AB fs_AB t0 item_A
             (lit "A") (lit "B"))
  = [pjoin folder_F (lit "B_20251123090507.json");
     pjoin folder_F (lit "B.json");
     folder_F; Controller.CHAT_HISTORY].
Proof. vm_compute. reflexivity. Qed.

Lemma rename_chat_renames_witness :
  data_of panel_AB item_A = Some (lit "F", lit "A")
  /\ fs_is_dir fs_AB (pjoin (storage_root panel_AB) (lit "F")) = true
  /\ let folder_path := pjoin (storage_root panel_AB) (lit "F") in
     let new_stem := sanitize_filename t0 (lit "B") in
     let target := pjoin folder_path (new_stem ++ JSON_EXT) in
     let f' := rename_chat ascii_lower panel_AB fs_AB t0 item_A
                 (lit "A") (lit "B") in
     match rename_find ascii_lower fs_AB t0 folder_path
             (lit "A") (lit "B") with
     | None =>
         (forall p, ~ rename_source ascii_lower fs_AB t0 folder_path
                        (lit "A") (lit "B") p)
         /\ f' = fs_AB
     | Some chosen =>
         rename_source ascii_lower fs_AB t0 folder_path
           (lit "A") (lit "B") chosen
         /\ (chosen = target -> f' = fs_AB)
         /\ (forall c,
               chosen <> target ->
               fs_lookup fs_AB chosen = Some (File c) ->
               let dest := if fs_exists fs_AB target
                           then stamped_target t0 folder_path new_stem
                           else target in
               fs_is_dir fs_AB dest = false ->
               stem dest = (if fs_exists fs_AB target
                            then new_stem ++ [UNDERSCORE]
                                   ++ stamp_compact t0
                            else new_stem)
               /\ fs_lookup f' dest = Some (File c)
               /\ (chosen <> dest -> fs_lookup f' chosen = None)
               /\ (forall q, q <> chosen -> q <> dest ->
                             fs_lookup f' q = fs_lookup fs_AB q)
               /\ fs_lookup f' target
                  = (if fs_exists fs_AB target
                     then fs_lookup fs_AB target
                     else Some (File c)))
     end.
Proof.
  split; [reflexivity|]. split; [reflexivity|].
  apply (rename_chat_renames ascii_lower panel_AB fs_AB t0 item_A
           (lit "A") (lit "B") (lit "F") (lit "A")); reflexivity.
Defined.

End RenameTheorems.

(** ** The two sanitizers agree *)

Module AgreementTheorems.

Import Controller Fixtures RenameTheorems.

(** C9.  Whenever the cleaned form of [s] (forbidden characters
    replaced, whitespace collapsed and stripped, trailing dots and spaces
    removed: this is [_sanitize s]) is non-empty and at most 200
    characters long, the side panel's [sanitize_filename] and the
    controller's [_sanitize] return the same stem.  Hence the file the
    side panel names [sanitize_filename(s).json] is the controller's
    sanitized candidate for [s], its normalized stem is the normalized
    title, and when it exists it is matched by the sanitized-name
    strategy of [resolve_chat_file]. *)
Theorem sanitize_filename_agrees (now : datetime) (s : str) :
  _sanitize s <> [] ->
  length (_sanitize s) <= 200 ->
  sanitize_filename now s = _sanitize s
  /\ forall (lower : str -> str) (folder : str),
       let p := pjoin (pjoin CHAT_HISTORY folder)
                      (sanitize_filename now s ++ JSON_EXT) in
       p = pjoin (pjoin CHAT_HISTORY folder) (_sanitize s ++ JSON_EXT)
       /\ lower (_sanitize (stem p)) = lower (_sanitize s)
       /\ forall f, fs_exists f p = true -> strategy lower f folder s p.
Proof.
  intros Hne Hlen.
  pose proof (sanitize_filename_eq_sanitize now s Hne Hlen) as E.
  split; [exact E|]. intros lower folder p.
  assert (Ep : p = pjoin (pjoin CHAT_HISTORY folder)
                         (_sanitize s ++ JSON_EXT))
    by (unfold p; rewrite E; reflexivity).
  split; [exact Ep|]. split.
  - unfold p. rewrite sanitized_json_shape, stem_json
      by apply sanitize_filename_nonempty.
    rewrite (_sanitize_clean _ (sanitize_filename_is_clean now s)), E.
    reflexivity.
  - intros f Hex. apply by_sanitized_name; assumption.
Qed.

Lemma sanitize_filename_agrees_witness :
  _sanitize (lit "a?b ..") <> []
  /\ length (_sanitize (lit "a?b ..")) <= 200
  /\ sanitize_filename t0 (lit "a?b ..") = _sanitize (lit "a?b ..")
  /\ forall (lower : str -> str) (folder : str),
       let p := pjoin (pjoin CHAT_HISTORY folder)
                      (sanitize_filename t0 (lit "a?b ..") ++ JSON_EXT) in
       p = pjoin (pjoin CHAT_HISTORY folder)
                 (_sanitize (lit "a?b ..") ++ JSON_EXT)
       /\ lower (_sanitize (stem p)) = lower (_sanitize (lit "a?b .."))
       /\ forall f, fs_exists f p = true ->
                    strategy lower f folder (lit "a?b ..") p.
Proof.
  split; [vm_compute; discriminate|].
  split; [vm_compute; lia|].
  apply (sanitize_filename_agrees t0 (lit "a?b .."));
    [vm_compute; discriminate | vm_compute; lia].
Defined.

End AgreementTheorems.

(** ** Chat files: what is written, and what is read back *)

Module ControllerTheorems.

Import SidePanel Controller Fixtures ResolveTheorems RenameTheorems.

Lemma folders_get_set_same d k v : folders_get (folders_set d k v) k = Some v.
Proof.
  induction d as [|[k' v'] r IH]; simpl.
  - rewrite str_eqb_refl. reflexivity.
  - destruct (str_eqb k' k) eqn:E; simpl; rewrite E; auto.
Qed.

Lemma store_get_set_same {A} (s : list (item_id * A)) i v :
  store_get (store_set s i v) i = Some v.
Proof. unfold store_set. simpl. rewrite Nat.eqb_refl. reflexivity. Qed.

(** Without [save_json] the disk is not touched. *)
Lemma save_chat_to_folder_no_json P f now folder_name title :
  snd (fst (save_chat_to_folder P f now folder_name title false)) = f.
Proof.
  unfold save_chat_to_folder.
  destruct (folders_get (folders _) folder_name); reflexivity.
Qed.

(** With [save_json], the one regular file that can appear is
    [chat_file_of], and the new row carries the title. *)
Lemma save_chat_to_folder_json P f now folder_name title :
  let r := save_chat_to_folder P f now folder_name title true in
  let chat_title := title_or_stamp title now in
  data_of (fst (fst r)) (snd r) = Some (folder_name, chat_title)
  /\ forall q x,
       fs_lookup (snd (fst r)) q = Some (File x) ->
       q = chat_file_of P now folder_name chat_title
       \/ fs_lookup f q = Some (File x).
Proof.
  intros r chat_title. unfold r, save_chat_to_folder.
  set (P1 := match folders_get (folders P) folder_name with
             | Some _ => P
             | None => create_folder P folder_name
             end).
  assert (H1 : exists fo, folders_get (folders P1) folder_name = Some fo).
  { unfold P1. destruct (folders_get (folders P) folder_name) eqn:E; eauto.
    unfold create_folder. cbn [folders].
    rewrite folders_get_set_same. eauto. }
  destruct H1 as [fo ->]. fold chat_title.
  destruct (os_mkdir f (pjoin (storage_root P) folder_name)) as [f1|] eqn:Em.
  - destruct (os_write f1 _ _) as [f2|] eqn:Ew; cbn [fst snd].
    + split; [unfold data_of; cbn [item_data]; apply store_get_set_same|].
      intros q x H. eapply os_write_files in H; [|exact Ew].
      destruct H as [H|H]; [left; exact H | right].
      eapply os_mkdir_files; eauto.
    + split; [unfold data_of; cbn [item_data]; apply store_get_set_same|].
      intros q x H. right. eapply os_mkdir_files; eauto.
  - cbn [fst snd].
    split; [unfold data_of; cbn [item_data]; apply store_get_set_same|].
    auto.
Qed.

Lemma chat_file_of_stem P now folder_name chat_title :
  let p := chat_file_of P now folder_name chat_title in
  parent p = pjoin (storage_root P) folder_name
  /\ stem p = sanitize_filename now chat_title
  /\ no_forbidden (stem p).
Proof.
  unfold chat_file_of. rewrite sanitized_json_shape.
  rewrite parent_snoc, stem_json by apply sanitize_filename_nonempty.
  repeat split. apply (sanitize_filename_is_clean now chat_title).
Qed.

(** A path [dir/title.json] for an already clean title. *)
Lemma clean_title_file dir title :
  clean_stem title ->
  let p := pjoin dir (title ++ JSON_EXT) in
  parent p = dir /\ stem p = title
  /\ (forall now, sanitize_filename now title = title)
  /\ no_forbidden title.
Proof.
  intros Hc p. unfold p.
  rewrite json_name_shape by (apply no_forbidden_plain, Hc).
  assert (title <> []).
  { destruct Hc as (_ & _ & _ & (r & c & E & _) & _).
    rewrite E. destruct r; discriminate. }
  rewrite parent_snoc, stem_json by assumption.
  repeat split.
  - intros now. apply sanitize_filename_clean; exact Hc.
  - apply Hc.
Qed.

(** C7.  Every chat file the program creates is named after the
    sanitized title.  (1) [save_chat_to_folder] with [save_json]: the
    new row has title [t], and any regular file the call adds is
    [sanitize_filename(t).json] in the folder's directory.
    (2) [handle_new_chat] and (3) [_ensure_chat_file] write
    [title.json] for their time-stamp titles, which [sanitize_filename]
    leaves unchanged.  In each case the stem has no forbidden
    character. *)
Theorem chat_files_named_after_sanitized_title
    (c : controller) (P : panel) (f : fs) (now : datetime)
    (folder_name : str) (title : option str) :
  (let r := save_chat_to_folder P f now folder_name title true in
   let t := title_or_stamp title now in
   data_of (fst (fst r)) (snd r) = Some (folder_name, t)
   /\ exists p,
        parent p = pjoin (storage_root P) folder_name
        /\ stem p = sanitize_filename now t
        /\ no_forbidden (stem p)
        /\ forall q x, fs_lookup (snd (fst r)) q = Some (File x) ->
                       q = p \/ fs_lookup f q = Some (File x))
  /\ (let r := handle_new_chat c P f now in
      let t := stamp_title now in
      exists p,
        parent p = pjoin (storage_root P) (active_or_default P)
        /\ stem p = sanitize_filename now t
        /\ no_forbidden (stem p)
        /\ (current_chat_file (fst (fst r)) = Some p
            \/ current_chat_file (fst (fst r)) = None)
        /\ forall q x, fs_lookup (snd r) q = Some (File x) ->
                       q = p \/ fs_lookup f q = Some (File x))
  /\ (let r := _ensure_chat_file c P f now in
      let t := stamp_ensure now in
      exists p1 p2,
        parent p1 = pjoin CHAT_HISTORY (active_or_default P)
        /\ parent p2 = pjoin (storage_root P) (active_or_default P)
        /\ stem p1 = sanitize_filename now t
        /\ stem p2 = sanitize_filename now t
        /\ no_forbidden (stem p1)
        /\ forall q x, fs_lookup (snd (fst r)) q = Some (File x) ->
                       q = p1 \/ q = p2 \/ fs_lookup f q = Some (File x)).
Proof.
  split; [|split].
  - intros r t.
    destruct (save_chat_to_folder_json P f now folder_name title) as [Hd Hf].
    split; [exact Hd|].
    exists (chat_file_of P now folder_name t).
    destruct (chat_file_of_stem P now folder_name t) as (H1 & H2 & H3).
    repeat split; auto.
  - intros r t. unfold r, handle_new_chat. fold t.
    set (dir := pjoin (storage_root P) (active_or_default P)).
    destruct (clean_title_file dir t (stamp_title_clean now))
      as (H1 & H2 & H3 & H4).
    exists (pjoin dir (t ++ JSON_EXT)).
    rewrite H2, H3.
    split; [exact H1|]. split; [reflexivity|]. split; [exact H4|]. split.
    + destruct (os_mkdir_parents f dir) as [f1|]; cbn [fst snd];
        [|auto].
      destruct (os_write f1 _ _) as [f2|];
        destruct (save_chat_to_folder P _ now _ _ false) as [[P' f3] i];
        cbn [fst snd]; auto.
    + intros q x.
      destruct (os_mkdir_parents f dir) as [f1|] eqn:Em; cbn [fst snd];
        [|auto].
      destruct (os_write f1 _ _) as [f2|] eqn:Ew.
      * pose proof (save_chat_to_folder_no_json P f2 now
                      (active_or_default P) (Some t)) as Hs.
        destruct (save_chat_to_folder P f2 now _ _ false) as [[P' f3] i].
        cbn [fst snd] in *. subst f3. intros H.
        eapply os_write_files in H; [|exact Ew].
        destruct H as [H|H]; [left; exact H | right].
        eapply os_mkdir_parents_files; eauto.
      * pose proof (save_chat_to_folder_no_json P f1 now
                      (active_or_default P) (Some t)) as Hs.
        destruct (save_chat_to_folder P f1 now _ _ false) as [[P' f3] i].
        cbn [fst snd] in *. subst f3. intros H. right.
        eapply os_mkdir_parents_files; eauto.
  - intros r t. unfold r, _ensure_chat_file. fold t.
    set (dir := pjoin CHAT_HISTORY (active_or_default P)).
    destruct (clean_title_file dir t (stamp_ensure_clean now))
      as (H1 & H2 & H3 & H4).
    destruct (chat_file_of_stem P now (active_or_default P) t)
      as (K1 & K2 & K3).
    exists (pjoin dir (t ++ JSON_EXT)),
           (chat_file_of P now (active_or_default P) t).
    rewrite H2, K2, H3.
    split; [exact H1|]. split; [exact K1|]. split; [reflexivity|].
    split; [reflexivity|]. split; [exact H4|].
    intros q x.
    destruct (match current_chat_file c with
              | Some p => fs_exists f p
              | None => false
              end); cbn [fst snd]; [auto|].
    destruct (os_mkdir_parents f dir) as [f1|] eqn:Em; cbn [fst snd];
      [|auto].
    destruct (os_write f1 _ _) as [f2|] eqn:Ew; cbn [fst snd].
    + destruct (save_chat_to_folder_json P f2 now (active_or_default P)
                  (Some t)) as [_ Hs].
      assert (Et : title_or_stamp (Some t) now = t).
      { unfold title_or_stamp. destruct t eqn:E; [|reflexivity].
        destruct (stamp_ensure_clean now) as (_ & _ & _ & (r0 & c0 & E0 & _) & _).
        fold t in E0. rewrite E in E0. destruct r0; discriminate. }
      rewrite Et in Hs.
      destruct (save_chat_to_folder P f2 now _ _ true) as [[P' f3] i].
      cbn [fst snd] in *. intros H. apply Hs in H.
      destruct H as [H|H]; [right; left; exact H|].
      eapply os_write_files in H; [|exact Ew].
      destruct H as [H|H]; [left; exact H | right; right].
      eapply os_mkdir_parents_files; eauto.
    + intros H. right; right. eapply os_mkdir_parents_files; eauto.
Qed.

Example new_chat_file_created :
  current_chat_file ctrl_new = Some new_chat_file
  /\ stem new_chat_file = new_chat_title
  /\ read_json fs_new new_chat_file
     = Some (init_data new_chat_title (lit "Default folder")).
Proof. vm_compute. auto. Qed.

(** *** Reading back what was appended *)

Lemma view_loaded self_model m :
  view [(lit "role", dict_get m (lit "role") (JStr (lit "user")));
        (lit "text", dict_get m (lit "text") (JStr []));
        (lit "images", dict_get m (lit "images") (JArr []));
        (lit "model", dict_get m (lit "model") (JStr self_model))]
  = view m.
Proof. reflexivity. Qed.

Lemma load_messages_objects self_model h :
  length (load_messages self_model (map JObj h)) = length h
  /\ map view (load_messages self_model (map JObj h)) = map view h.
Proof.
  induction h as [|m h [IH1 IH2]]; [split; reflexivity|].
  cbn [map load_messages length]. split; [rewrite IH1; reflexivity|].
  rewrite view_loaded, IH2. reflexivity.
Qed.

Section Lower.

Variable lower : str -> str.

(** C6.  Once [_append_record] has written the history to the current
    chat file [p] (its directory exists and [p] is not a directory),
    [handle_open_chat_file] on a folder and title that resolve to [p]
    rebuilds a history with the same number of messages and, message by
    message, the same role, text and images. *)
Theorem append_then_open_roundtrip (c : controller) (f : fs)
    (role : str) (content : dict) (model_name : option str)
    (p : Path) (folder chat_title : str) :
  current_chat_file c = Some p ->
  fs_is_dir f (parent p) = true ->
  fs_is_dir f p = false ->
  let c1 := fst (_append_record c f role content model_name) in
  let f1 := snd (_append_record c f role content model_name) in
  resolve_chat_file lower f1 folder chat_title = p ->
  let c2 := handle_open_chat_file lower c1 f1 folder chat_title in
  chat_history c1 = chat_history c ++ [msg_data role content model_name]
  /\ read_json f1 p = Some (history_json (chat_history c1))
  /\ current_chat_file c2 = Some p
  /\ length (chat_history c2) = length (chat_history c1)
  /\ map view (chat_history c2) = map view (chat_history c1).
Proof.
  intros Hcur Hpar Hnd c1 f1.
  unfold c1, f1, _append_record. rewrite Hcur.
  rewrite (os_write_ok f p _ Hpar Hnd). cbn [fst snd chat_history with_history].
  set (h := chat_history c ++ [msg_data role content model_name]).
  set (f' := fs_put f p (File (Some (history_json h)))).
  assert (Hread : read_json f' p = Some (history_json h)).
  { apply (os_write_read f p). apply os_write_ok; assumption. }
  intros Hres. split; [reflexivity|]. split; [exact Hread|].
  unfold handle_open_chat_file. rewrite Hres.
  assert (Hex : fs_exists f' p = true).
  { unfold read_json in Hread. unfold fs_exists.
    destruct (fs_lookup f' p); [reflexivity | discriminate]. }
  rewrite Hex, Hread. cbn [negb history_json iterate].
  cbn [current_chat_file chat_history with_history with_file].
  destruct (load_messages_objects (model c) h) as [H1 H2].
  split; [reflexivity|]. split; assumption.
Qed.

End Lower.

(** The first message of the new chat of the fixtures, read back. *)
Example first_message_read_back :
  chat_history
    (handle_open_chat_file ascii_lower ctrl_sent fs_sent
       (lit "Default folder") new_chat_title)
  = [[(lit "role", JStr (lit "user")); (lit "text", JStr (lit "hi"));
      (lit "images", JNull); (lit "model", JStr (lit "openai/gpt-4o"))]].
Proof. vm_compute. reflexivity. Qed.

Lemma append_then_open_roundtrip_witness :
  current_chat_file ctrl_new = Some new_chat_file
  /\ fs_is_dir fs_new (parent new_chat_file) = true
  /\ fs_is_dir fs_new new_chat_file = false
  /\ resolve_chat_file ascii_lower fs_sent (lit "Default folder")
       new_chat_title = new_chat_file
  /\ let c2 := handle_open_chat_file ascii_lower ctrl_sent fs_sent
                 (lit "Default folder") new_chat_title in
     chat_history ctrl_sent
     = chat_history ctrl_new ++ [msg_data (lit "user") hi_content None]
     /\ read_json fs_sent new_chat_file
        = Some (history_json (chat_history ctrl_sent))
     /\ current_chat_file c2 = Some new_chat_file
     /\ length (chat_history c2) = length (chat_history ctrl_sent)
     /\ map view (chat_history c2) = map view (chat_history ctrl_sent).
Proof.
  split; [reflexivity|]. split; [reflexivity|]. split; [reflexivity|].
  split; [vm_compute; reflexivity|].
  apply (append_then_open_roundtrip ascii_lower ctrl_new fs_new
           (lit "user") hi_content None new_chat_file
           (lit "Default folder") new_chat_title);
    [reflexivity | reflexivity | reflexivity | vm_compute; reflexivity].
Defined.

(** *** What [_append_record] leaves in the file *)

(** C1 (the code departs from the claim).  The new chat of the fixtures
    starts as the object with [title], [folder] and [messages]; after
    the first [_append_record] the same file holds a bare array of
    message records: it is no longer an object and has no title. *)
Theorem append_record_drops_title :
  current_chat_file ctrl_new = Some new_chat_file
  /\ read_json fs_new new_chat_file
     = Some (init_data new_chat_title (lit "Default folder"))
  /\ read_json fs_sent new_chat_file
     = Some (JArr [JObj [(lit "role", JStr (lit "user"));
                         (lit "text", JStr (lit "hi"));
                         (lit "images", JNull)]])
  /\ (forall d, read_json fs_sent new_chat_file <> Some (JObj d))
  /\ Controller.title_matches (read_json fs_sent new_chat_file)
       new_chat_title = false.
Proof.
  split; [reflexivity|]. split; [vm_compute; reflexivity|].
  assert (E : read_json fs_sent new_chat_file
              = Some (JArr [JObj [(lit "role", JStr (lit "user"));
                                  (lit "text", JStr (lit "hi"));
                                  (lit "images", JNull)]]))
    by (vm_compute; reflexivity).
  split; [exact E|]. rewrite E. split; [intros d; discriminate | reflexivity].
Qed.

End ControllerTheorems.

(** ** Deleting a chat, deleting a folder *)

Module DeleteTheorems.

Import SidePanel Fixtures.

(** C4 (the code departs from the claim).  In folder [F] with chats [A]
    and [B], the user renames [A] to [B]: the file of [A] becomes
    [B_20251123090507.json] and the row is titled [B].  Deleting that
    row takes it out of the folder's items and of the list, but on disk
    it unlinks [B.json], the file of the other chat, and leaves the
    file of the deleted chat where it is. *)
Theorem delete_chat_misses_renamed_file :
  map fst fs_R
  = [pjoin folder_F (lit "B_20251123090507.json");
     pjoin folder_F (lit "B.json"); folder_F; Controller.CHAT_HISTORY]
  /\ data_of panel_R item_A = Some (lit "F", lit "B")
  /\ data_of panel_R item_B = Some (lit "F", lit "B")
  /\ option_map f_items (folders_get (folders panel_D) (lit "F"))
     = Some [item_B]
  /\ history_list panel_D = [0; item_B]
  /\ map fst fs_D
     = [pjoin folder_F (lit "B_20251123090507.json");
        folder_F; Controller.CHAT_HISTORY]
  /\ fs_lookup fs_D (pjoin folder_F (lit "B_20251123090507.json"))
     = fs_lookup fs_AB (pjoin folder_F (lit "A.json"))
  /\ fs_exists fs_D (pjoin folder_F (lit "B.json")) = false.
Proof. vm_compute. repeat split; reflexivity. Qed.

(** A chat whose file name drifted from its title: the controller finds
    the file, [delete_chat] does not, and the file stays. *)
Example delete_chat_leaves_drifted_file :
  data_of panel_drift item_drift = Some (lit "F", lit "My chat")
  /\ Controller.resolve_chat_file ascii_lower fs_drift (lit "F")
       (lit "My chat")
     = pjoin folder_F (lit "renamed.json")
  /\ history_list (fst (delete_chat panel_drift fs_drift t0 item_drift))
     = [0]
  /\ snd (delete_chat panel_drift fs_drift t0 item_drift) = fs_drift.
Proof. vm_compute. repeat split; reflexivity. Qed.

(** When the file still has the name of the title, it is deleted. *)
Example delete_chat_plain :
  map fst (snd (delete_chat panel_AB fs_AB t0 item_A))
  = [pjoin folder_F (lit "B.json"); folder_F; Controller.CHAT_HISTORY]
  /\ history_list (fst (delete_chat panel_AB fs_AB t0 item_A))
     = [0; item_B].
Proof. vm_compute. split; reflexivity. Qed.

(** [delete_folder] takes the folder, its rows and its directory. *)
Example delete_folder_all :
  folders (fst (delete_folder panel_AB fs_AB 0)) = []
  /\ history_list (fst (delete_folder panel_AB fs_AB 0)) = []
  /\ active_folder (fst (delete_folder panel_AB fs_AB 0)) = None
  /\ snd (delete_folder panel_AB fs_AB 0)
     = [(Controller.CHAT_HISTORY, Dir)].
Proof. vm_compute. repeat split; reflexivity. Qed.

End DeleteTheorems.

(** ** The worker *)

Module WorkerTheorems.

Import Worker Fixtures.

Lemma taken_app a b : taken (a ++ b) = taken a ++ taken b.
Proof.
  induction a as [|e a IH]; simpl; [reflexivity|].
  destruct e; simpl; rewrite IH; reflexivity.
Qed.

Lemma finished_app a b : finished (a ++ b) = finished a ++ finished b.
Proof.
  induction a as [|e a IH]; simpl; [reflexivity|].
  destruct e; simpl; rewrite IH; reflexivity.
Qed.

Lemma done_count_app a b : done_count (a ++ b) = done_count a + done_count b.
Proof.
  induction a as [|e a IH]; simpl; [reflexivity|].
  destruct e; simpl; rewrite IH; reflexivity.
Qed.

Lemma flight_app a b : flight (a ++ b) = fold_left flight_step b (flight a).
Proof. unfold flight. apply fold_left_app. Qed.

Lemma tasks_of_app a b : tasks_of (a ++ b) = tasks_of a ++ tasks_of b.
Proof. unfold tasks_of. apply flat_map_app. Qed.

Lemma is_prefix_refl {A} (l : list A) : is_prefix l l.
Proof. exists []; rewrite app_nil_r; reflexivity. Qed.

Lemma is_prefix_app {A} (a l t : list A) : is_prefix a l -> is_prefix a (l ++ t).
Proof. intros [u ->]. exists (u ++ t). rewrite app_assoc; reflexivity. Qed.

Lemma is_prefix_trans {A} (a b c : list A) :
  is_prefix a b -> is_prefix b c -> is_prefix a c.
Proof.
  intros [t ->] [u ->]. exists (t ++ u). rewrite app_assoc; reflexivity.
Qed.

Lemma is_prefix_map {A B} (g : A -> B) (a l : list A) :
  is_prefix a l -> is_prefix (map g a) (map g l).
Proof. intros [t ->]. exists (map g t). apply map_app. Qed.

Lemma invariant_init : invariant init.
Proof.
  split; simpl; try reflexivity.
  apply is_prefix_refl.
Qed.

(** Rewrites the trace readers over an appended event list. *)
Ltac trace_simpl :=
  cbn [queue running pc trace added goto take add_task stop] in *;
  rewrite ?taken_app, ?finished_app, ?flight_app, ?map_app, ?app_nil_r;
  cbn [taken finished fold_left flight_step map snd pending is_posting
       is_rendering app] in *;
  rewrite ?app_nil_r in *.

Lemma invariant_add_task s t : invariant s -> invariant (add_task s t).
Proof.
  intros [H1 H2 H3 H4]. split; trace_simpl; auto.
  rewrite tasks_of_app, H1. cbn [tasks_of flat_map app].
  rewrite app_assoc. reflexivity.
Qed.

Lemma invariant_stop s : invariant s -> invariant (stop s).
Proof.
  intros [H1 H2 H3 H4]. split; trace_simpl; auto.
  - rewrite tasks_of_app, H1. cbn [tasks_of flat_map app].
    rewrite app_nil_r. reflexivity.
  - intros [H|H]; [congruence|]. apply H4. right; exact H.
Qed.

Lemma invariant_work s r o : invariant s -> invariant (work s r o).
Proof.
  intros Hinv. pose proof Hinv as [H1 H2 H3 H4]. unfold work.
  destruct (pc s) as [| |t|t c|t c|t e|t|] eqn:Epc;
    cbn [pending is_posting is_rendering] in *.
  - (* loop head *)
    destruct (running s) eqn:Er; split; trace_simpl; rewrite ?H2; auto.
    intros [H|H]; congruence.
  - (* inside get *)
    destruct (queue s) as [|[t|] q] eqn:Eq.
    + split; trace_simpl; rewrite ?H2, ?Eq; cbn [tasks_of flat_map];
        rewrite ?app_nil_r; auto.
    + split; trace_simpl.
      * rewrite H1. cbn [tasks_of flat_map app].
        rewrite <- app_assoc. reflexivity.
      * rewrite H2. reflexivity.
      * destruct H3 as [u Hu]. rewrite Hu.
        exists (u ++ [bubble_of t]). rewrite app_assoc. reflexivity.
      * intros [H|H]; [|discriminate].
        rewrite (H4 (or_introl H)). reflexivity.
    + split; trace_simpl; rewrite ?H2; auto.
  - (* posting *)
    destruct r as [e|c [n|]]; split; trace_simpl;
      rewrite ?H2; auto.
  - (* parsed *)
    destruct (running s) eqn:Er; split; trace_simpl; rewrite ?H2; auto.
    intros [H|H]; congruence.
  - (* rendering *)
    specialize (H4 (or_intror eq_refl)).
    destruct o as [h|e]; split; trace_simpl; rewrite ?H2; auto.
    rewrite H4. apply is_prefix_refl.
  - (* handling *)
    destruct (running s) eqn:Er; split; trace_simpl; rewrite ?H2; auto.
    + rewrite (H4 (or_introl eq_refl)). apply is_prefix_refl.
    + intros [H|H]; congruence.
  - (* finishing *)
    split; trace_simpl; rewrite ?H2; auto.
  - exact Hinv.
Qed.

Lemma invariant_step s i : invariant s -> invariant (step s i).
Proof.
  destruct i; simpl;
    [apply invariant_add_task | apply invariant_stop | apply invariant_work].
Qed.

Lemma invariant_run ins : forall s, invariant s -> invariant (run s ins).
Proof.
  induction ins as [|i ins IH]; intros s H; [exact H|].
  apply IH, invariant_step, H.
Qed.

Lemma flight_none tr : fold_left flight_step tr None = None.
Proof. induction tr as [|e tr IH]; simpl; auto. Qed.

(** C5.  Whatever the interleaving of [add_task], [stop] and worker
    moves: the worker takes the tasks in the order they were added (the
    tasks taken are a prefix of the tasks added); a POST begins only
    when none is under way, at every point of the trace; and the
    [finished] signals come in the order of the [add_task] calls (their
    bubbles are a prefix of the bubbles of the tasks added). *)
Theorem worker_serializes (ins : list input) :
  let s := run init ins in
  is_prefix (taken (trace s)) (added s)
  /\ (forall tr1 tr2, trace s = tr1 ++ tr2 -> flight tr1 <> None)
  /\ is_prefix (map snd (finished (trace s))) (map bubble_of (added s)).
Proof.
  intros s. destruct (invariant_run ins init invariant_init)
    as [H1 H2 H3 H4]. fold s in H1, H2, H3, H4.
  assert (Hp : is_prefix (taken (trace s)) (added s))
    by (exists (tasks_of (queue s)); exact H1).
  split; [exact Hp|]. split.
  - intros tr1 tr2 E Hn. rewrite E, flight_app, Hn, flight_none in H2.
    discriminate.
  - eapply is_prefix_trans; [exact H3|]. apply is_prefix_map; exact Hp.
Qed.

Example worker_serializes_run :
  let s := run queued1 interleaving in
  taken (trace s) = [task1]
  /\ added s = [task1; task2]
  /\ map snd (finished (trace s)) = [1]
  /\ pc s = AtLoopHead /\ queue s = [Some task2].
Proof. vm_compute. auto 6. Qed.

(** *** One task, from the queue to [task_done] *)

Lemma work_add_task_commute s t' r o :
  engaged s -> work (add_task s t') r o = add_task (work s r o) t'.
Proof.
  destruct s as [qu ru p tr ad]. unfold engaged, work, add_task.
  cbn [pc running queue trace added]. intros He.
  destruct p; try reflexivity.
  - destruct ru; reflexivity.
  - destruct qu as [|[t|] q]; try reflexivity.
    destruct He as [He|He]; congruence.
  - destruct r as [e|c [n|]]; reflexivity.
  - destruct ru; reflexivity.
  - destruct o; reflexivity.
  - destruct ru; reflexivity.
Qed.

Lemma engaged_add_task s t' : engaged (add_task s t').
Proof. right. cbn [add_task queue]. destruct (queue s); discriminate. Qed.

Section OneTask.

Variables (r : response) (o : render).

#[local] Abbreviation W := (work_times r o).

Lemma W_succ k s : W (S k) s = W k (work s r o).
Proof. reflexivity. Qed.

Lemma W_add_task t' : forall k s,
  (forall j, j < k -> engaged (W j s)) ->
  W k (add_task s t') = add_task (W k s) t'.
Proof.
  induction k as [|k IH]; intros s He; [reflexivity|].
  rewrite !W_succ. rewrite work_add_task_commute by (apply (He 0); lia).
  apply IH. intros j Hj. rewrite <- W_succ. apply He. lia.
Qed.

(** Tasks added while a task is handled end up behind it. *)
Lemma run_interleaved : forall ins s k,
  existsb is_stop ins = false ->
  works ins = repeat (Work r o) k ->
  (forall j, j < k -> engaged (W j s)) ->
  run s ins = fold_left add_task (adds ins) (W k s).
Proof.
  induction ins as [|i ins IH]; intros s k Hs Hw He.
  - destruct k; [reflexivity | discriminate].
  - destruct i as [t'| |r' o']; cbn [existsb is_stop orb] in Hs;
      [|discriminate|].
    + cbn [works filter] in Hw. cbn [run fold_left step adds flat_map app].
      fold (run (add_task s t') ins). fold (adds ins).
      rewrite (IH (add_task s t') k Hs Hw).
      * rewrite W_add_task by exact He. reflexivity.
      * intros j Hj. rewrite W_add_task by (intros; apply He; lia).
        apply engaged_add_task.
    + cbn [works filter] in Hw. fold (works ins) in Hw.
      destruct k as [|k]; [discriminate|].
      cbn [repeat] in Hw. inversion Hw; subst r' o'.
      cbn [run fold_left step adds flat_map app].
      fold (run (work s r o) ins). fold (adds ins).
      rewrite W_succ. apply IH; auto.
      intros j Hj. rewrite <- W_succ. apply He. lia.
Qed.

Lemma fold_add_task l : forall s,
  pc (fold_left add_task l s) = pc s
  /\ running (fold_left add_task l s) = running s
  /\ trace (fold_left add_task l s) = trace s
  /\ queue (fold_left add_task l s) = queue s ++ map Some l.
Proof.
  induction l as [|t l IH]; intros s; cbn [fold_left map].
  - rewrite app_nil_r. auto.
  - destruct (IH (add_task s t)) as (H1 & H2 & H3 & H4).
    rewrite H1, H2, H3, H4. cbn [add_task pc running trace queue].
    rewrite <- app_assoc. auto.
Qed.

(** The moves of the worker on one task, nothing happening between. *)
Lemma handle_task s t q :
  pc s = AtLoopHead -> running s = true -> queue s = Some t :: q ->
  let s' := W (moves r o) s in
  (forall j, j < moves r o -> engaged (W j s))
  /\ trace s' = trace s ++ [EvPostStart t; EvPostEnd t]
                 ++ match r with
                    | RespOk _ (Some n) => [EvStats n]
                    | _ => []
                    end
                 ++ [EvFinished (reply r o) (bubble_of t); EvTaskDone]
  /\ pc s' = AtLoopHead /\ running s' = true /\ queue s' = q.
Proof.
  destruct s as [qu ru p tr ad]. cbn [pc running queue trace].
  intros -> -> ->. split.
  - intros j Hj.
    destruct r as [e|c [n|]], o as [h|e'];
      cbn [moves] in Hj;
      do 7 (destruct j as [|j];
            [first [ lia
                   | unfold engaged, work_times; cbn;
                     first [left; discriminate | right; discriminate] ]|]);
      lia.
  - destruct r as [e|c [n|]], o as [h|e'];
      cbn -[app]; rewrite <- ?app_assoc; auto.
Qed.

End OneTask.

(** C8.  A task at the head of the queue of a running worker, handled
    without a [stop] in between (and whatever tasks are added
    meanwhile), gets exactly one [finished] signal: the rendered HTML
    with the raw text when the request and the rendering succeed, the
    error payload when either raises.  The task is then marked done and
    the worker is back at the head of its loop, still running, where its
    next two moves (the test of the loop, then the [get]) take the next
    queued task. *)
Theorem one_finished_signal_per_task (s : wstate) (t : task)
    (q : list (option task)) (r : response) (o : render)
    (ins : list input) :
  pc s = AtLoopHead ->
  running s = true ->
  queue s = Some t :: q ->
  existsb is_stop ins = false ->
  works ins = repeat (Work r o) (moves r o) ->
  let s' := run s ins in
  finished (trace s') = finished (trace s) ++ [(reply r o, bubble_of t)]
  /\ done_count (trace s') = S (done_count (trace s))
  /\ pc s' = AtLoopHead /\ running s' = true
  /\ queue s' = q ++ map Some (adds ins)
  /\ (forall t2 q2 r2 o2, queue s' = Some t2 :: q2 ->
                          pc (work (work s' r2 o2) r2 o2) = Posting t2).
Proof.
  intros Hpc Hrun Hq Hs Hw s'.
  destruct (handle_task r o s t q Hpc Hrun Hq) as (He & Ht & Hp & Hr & Hq').
  unfold work_times in Ht, Hp, Hr, Hq'.
  assert (E : s' = fold_left add_task (adds ins)
                     (run s (repeat (Work r o) (moves r o))))
    by (apply run_interleaved; assumption).
  destruct (fold_add_task (adds ins)
              (run s (repeat (Work r o) (moves r o))))
    as (F1 & F2 & F3 & F4).
  rewrite <- E in F1, F2, F3, F4.
  rewrite F3, Ht, F1, Hp, F2, Hr, F4, Hq'.
  rewrite !finished_app, !done_count_app.
  assert (Hf : forall l, finished l = [] /\ done_count l = 0 ->
                         finished (l ++ [EvFinished (reply r o) (bubble_of t);
                                         EvTaskDone])
                         = [(reply r o, bubble_of t)]
                         /\ done_count (l ++ [EvFinished (reply r o)
                                                (bubble_of t); EvTaskDone])
                            = 1).
  { intros l [L1 L2]. rewrite finished_app, done_count_app, L1, L2.
    split; reflexivity. }
  split; [|split; [|split; [|split; [|split]]]]; auto.
  - f_equal. destruct r as [e|c [n|]]; reflexivity.
  - rewrite Nat.add_comm. cbn [plus]. f_equal.
    destruct r as [e|c [n|]]; reflexivity.
  - intros t2 q2 r2 o2 Hq2. unfold work at 1.
    assert (E1 : pc (work s' r2 o2) = Waiting)
      by (unfold work; rewrite F1, Hp, F2, Hr; reflexivity).
    assert (E2 : queue (work s' r2 o2) = Some t2 :: q2)
      by (unfold work; rewrite F1, Hp, F2, Hr; cbn [goto queue];
          rewrite F4, Hq'; exact Hq2).
    rewrite E1, E2. reflexivity.
Qed.

Lemma one_finished_signal_per_task_witness :
  pc queued1 = AtLoopHead
  /\ running queued1 = true
  /\ queue queued1 = Some task1 :: []
  /\ existsb is_stop interleaving = false
  /\ works interleaving
     = repeat (Work timeout_error no_render)
              (moves timeout_error no_render)
  /\ let s' := run queued1 interleaving in
     finished (trace s')
     = finished (trace queued1)
         ++ [(reply timeout_error no_render,
              bubble_of task1)]
     /\ done_count (trace s')
        = S (done_count (trace queued1))
     /\ pc s' = AtLoopHead /\ running s' = true
     /\ queue s' = [] ++ map Some (adds interleaving)
     /\ (forall t2 q2 r2 o2, queue s' = Some t2 :: q2 ->
                             pc (work (work s' r2 o2) r2 o2) = Posting t2).
Proof.
  split; [reflexivity|]. split; [reflexivity|]. split; [reflexivity|].
  split; [reflexivity|]. split; [reflexivity|].
  apply (one_finished_signal_per_task queued1 task1 []
           timeout_error no_render
           interleaving); reflexivity.
Defined.

End WorkerTheorems.

(* ================================================================== *)
(** * Part III: further properties of the code                          *)
(* ================================================================== *)

(** ** More on the sanitizers *)

Module SanitizeMore.

Import Fixtures.

Lemma stamp_fallback_length t : length (stamp_fallback t) = 24.
Proof. reflexivity. Qed.

Lemma cut_length max_len (c2 : str) :
  length (if max_len <? length c2
          then rstrip is_space (firstn max_len c2) else c2) <= max_len.
Proof.
  destruct (max_len <? length c2) eqn:E.
  - etransitivity; [apply rstrip_length | apply firstn_le_length].
  - apply Nat.ltb_ge; exact E.
Qed.

(** X1.  The stem [sanitize_filename(name, max_len)] returns is never
    longer than [max_len], except for the time-stamp fallback, which
    has 24 characters whatever [max_len] is: the length is at most the
    larger of [max_len] and 24, and at most 200 with the default. *)
Theorem sanitize_filename_length (max_len : nat) (now : datetime)
    (name : str) :
  length (sanitize_filename_len max_len now name) <= Nat.max max_len 24
  /\ (sanitize_filename_len max_len now name <> stamp_fallback now ->
      length (sanitize_filename_len max_len now name) <= max_len)
  /\ length (sanitize_filename now name) <= 200.
Proof.
  assert (H : sanitize_filename_len max_len now name = stamp_fallback now
              \/ length (sanitize_filename_len max_len now name) <= max_len).
  { unfold sanitize_filename_len.
    set (c3 := if max_len <? length (cleaned name)
               then rstrip is_space (firstn max_len (cleaned name))
               else cleaned name).
    assert (H3 : length c3 <= max_len) by apply cut_length.
    clearbody c3.
    pose proof (rstrip_length is_dot_or_space c3) as H4.
    destruct (rstrip is_dot_or_space c3) as [|x k] eqn:E; [left; reflexivity|].
    right. change (length (x :: k) <= max_len). lia. }
  split; [|split].
  - destruct H as [-> | H]; [rewrite stamp_fallback_length|]; lia.
  - intros Hne. destruct H as [H|H]; [contradiction | exact H].
  - apply (sanitize_filename_is_clean now name).
Qed.

(** X2.  The stems [sanitize_filename] leaves unchanged are exactly the
    clean ones: no forbidden character, whitespace only as single plain
    spaces inside, no dot at the end, between 1 and 200 characters. *)
Theorem sanitize_filename_fixed_points (now : datetime) (s : str) :
  sanitize_filename now s = s <-> clean_stem s.
Proof.
  split.
  - intros E. rewrite <- E. apply sanitize_filename_is_clean.
  - apply sanitize_filename_clean.
Qed.

(** What [_sanitize] returns when it is not empty. *)
Lemma _sanitize_shape s :
  _sanitize s = []
  \/ (no_forbidden (_sanitize s) /\ collapsed (_sanitize s)
      /\ starts_clean (_sanitize s) /\ ends_clean (_sanitize s)).
Proof.
  unfold _sanitize. destruct (cleaned_props s) as (Hf & Hc & Hs).
  set (c2 := cleaned s) in *.
  pose proof (rstrip_prefix is_dot_or_space c2) as P.
  destruct (rstrip_last is_dot_or_space c2) as [E | (r & c & E & Hd)];
    [left; exact E | right].
  rewrite E in *.
  assert (Hin : In c c2).
  { destruct P as [t ->]. apply in_or_app; left.
    apply in_or_app; right; left; reflexivity. }
  destruct (dot_or_space_ws c Hd (collapsed_space c2 c Hc Hin)) as [Hsp Hdot].
  repeat apply conj.
  - eapply no_forbidden_prefix; eauto.
  - eapply collapsed_prefix; eauto.
  - eapply starts_clean_prefix; eauto.
  - exists r, c; auto.
Qed.

(** X3.  The controller's [_sanitize] is idempotent, for every string
    (it has no length cut and no fallback, and may return the empty
    string). *)
Theorem _sanitize_idempotent (s : str) :
  _sanitize (_sanitize s) = _sanitize s.
Proof.
  destruct (_sanitize_shape s) as [E | (Hf & Hc & Hs & He)].
  - rewrite E. reflexivity.
  - set (x := _sanitize s) in *. unfold _sanitize, cleaned.
    rewrite (replace_forbidden_id _ Hf), (collapse_ws_id _ Hc).
    rewrite (strip_id _ Hs (or_intror He)).
    destruct He as [r [c [E [Hsp Hd]]]]. rewrite E.
    apply rstrip_keep, ends_clean_dot_or_space; assumption.
Qed.

Lemma rstrip_nil_all p s :
  rstrip p s = [] -> Forall (fun c => p c = true) s.
Proof.
  intros E. destruct (rstrip_split p s) as (t & Et & Ft).
  rewrite E in Et. simpl in Et. subst t. exact Ft.
Qed.

Lemma all_rstrip_nil p s :
  Forall (fun c => p c = true) s -> rstrip p s = [].
Proof.
  intros F. rewrite <- (app_nil_l s). rewrite rstrip_all by exact F.
  reflexivity.
Qed.

Lemma Forall_prefix {A} (P : A -> Prop) (a l : list A) :
  (exists t, l = a ++ t) -> Forall P l -> Forall P a.
Proof. intros [t ->] F. apply Forall_app in F. tauto. Qed.

(** X4.  Where the controller's [_sanitize] returns the empty stem (a
    title made of dots and whitespace only), the side panel's
    [sanitize_filename] returns its time-stamp fallback: on such
    titles the two sanitizers always differ. *)
Theorem sanitize_filename_fallback (now : datetime) (s : str) :
  _sanitize s = [] ->
  sanitize_filename now s = stamp_fallback now
  /\ sanitize_filename now s <> _sanitize s.
Proof.
  intros E.
  assert (H : sanitize_filename now s = stamp_fallback now).
  { unfold _sanitize in E. apply rstrip_nil_all in E.
    unfold sanitize_filename, sanitize_filename_len.
    set (c3 := if max_len_default <? length (cleaned s)
               then rstrip is_space (firstn max_len_default (cleaned s))
               else cleaned s).
    assert (P : exists t, cleaned s = c3 ++ t).
    { unfold c3. destruct (max_len_default <? length (cleaned s)).
      - apply (prefix_trans _ (firstn max_len_default (cleaned s)));
          [apply rstrip_prefix | apply firstn_prefix].
      - apply prefix_refl. }
    rewrite (all_rstrip_nil is_dot_or_space c3); [reflexivity|].
    eapply Forall_prefix; eauto. }
  split; [exact H|]. rewrite H, E. discriminate.
Qed.

Lemma sanitize_filename_fallback_witness :
  _sanitize (lit " .. ") = []
  /\ sanitize_filename t0 (lit " .. ") = stamp_fallback t0
  /\ sanitize_filename t0 (lit " .. ") <> _sanitize (lit " .. ").
Proof.
  split; [reflexivity|].
  apply (sanitize_filename_fallback t0 (lit " .. ")). reflexivity.
Defined.

(** *** [utils.sanitize_filename] *)

Lemma invalid_forbidden c : UtilsPy.invalid c = forbidden c.
Proof.
  unfold UtilsPy.invalid, forbidden.
  destruct (c =? 60)%N, (c =? 62)%N, (c =? 58)%N, (c =? 34)%N,
           (c =? 47)%N, (c =? 92)%N, (c =? 124)%N, (c =? 63)%N,
           (c =? 42)%N; reflexivity.
Qed.

Lemma utils_sanitize_replace s :
  UtilsPy.sanitize_filename s = replace_forbidden s.
Proof.
  unfold UtilsPy.sanitize_filename, replace_forbidden.
  apply map_ext. intros c. rewrite invalid_forbidden. reflexivity.
Qed.

(** X5.  [utils.sanitize_filename] keeps the length of the name, leaves
    no character of its class, is idempotent, and is absorbed by the
    side panel's [sanitize_filename]: sanitizing with the helper of
    [Utils] first changes nothing for the side panel. *)
Theorem utils_sanitize_filename_props (now : datetime) (s : str) :
  length (UtilsPy.sanitize_filename s) = length s
  /\ Forall (fun c => UtilsPy.invalid c = false) (UtilsPy.sanitize_filename s)
  /\ UtilsPy.sanitize_filename (UtilsPy.sanitize_filename s)
     = UtilsPy.sanitize_filename s
  /\ sanitize_filename now (UtilsPy.sanitize_filename s)
     = sanitize_filename now s.
Proof.
  rewrite !utils_sanitize_replace.
  pose proof (no_forbidden_replace s) as Hn.
  split; [apply length_map|]. split.
  - revert Hn. unfold no_forbidden. apply Forall_impl.
    intros c. rewrite invalid_forbidden. auto.
  - split; [apply replace_forbidden_id; exact Hn|].
    unfold sanitize_filename, sanitize_filename_len, cleaned.
    rewrite (replace_forbidden_id _ Hn). reflexivity.
Qed.

End SanitizeMore.

(** ** The layout of the chat list *)

Module PanelLayout.

Import SidePanel PanelOps Fixtures ControllerTheorems.

Lemma folders_set_new d k v :
  folders_get d k = None -> folders_set d k v = d ++ [(k, v)].
Proof.
  induction d as [|[k' v'] r IH]; simpl; [reflexivity|].
  destruct (str_eqb k' k); [discriminate|].
  intros H. rewrite IH by exact H. reflexivity.
Qed.

(** The first entry under a key splits the dictionary. *)
Lemma folders_split d k fr :
  folders_get d k = Some fr ->
  exists A B,
    d = A ++ (k, fr) :: B
    /\ folders_get A k = None
    /\ (forall v, folders_set d k v = A ++ (k, v) :: B)
    /\ folders_pop d k = A ++ B.
Proof.
  induction d as [|[k' v'] r IH]; simpl; [discriminate|].
  destruct (str_eqb k' k) eqn:E.
  - intros H; inversion H; subst v'. apply str_eqb_eq in E. subst k'.
    exists [], r. repeat split; reflexivity.
  - intros H. destruct (IH H) as (A & B & -> & HA & Hs & Hp).
    exists ((k', v') :: A), B. simpl. rewrite E.
    repeat split; auto.
    + intros v. rewrite Hs. reflexivity.
    + rewrite Hp. reflexivity.
Qed.

Lemma row_of_app X h Y :
  ~ In h X -> row_of (X ++ h :: Y) h = Some (length X).
Proof.
  induction X as [|x X IH]; simpl; intros H.
  - rewrite Nat.eqb_refl. reflexivity.
  - destruct (Nat.eqb_spec x h) as [->|_]; [tauto|].
    rewrite IH by tauto. reflexivity.
Qed.

Lemma insert_at_app X Y i : insert_at (X ++ Y) (length X) i = X ++ i :: Y.
Proof.
  induction X as [|x X IH]; simpl.
  - destruct Y; reflexivity.
  - rewrite IH. reflexivity.
Qed.

Lemma folders_get_none d k :
  folders_get d k = None -> ~ In k (map fst d).
Proof.
  induction d as [|[k' v'] r IH]; simpl; [tauto|].
  destruct (str_eqb k' k) eqn:E; [discriminate|].
  intros H [H1|H1]; [|exact (IH H H1)].
  subst k'. rewrite str_eqb_refl in E. discriminate.
Qed.

Lemma well_formed_empty : well_formed empty_panel.
Proof.
  split; simpl; [reflexivity | constructor | tauto | constructor].
Qed.

(** A folder under a new name goes to the end of the list. *)
Lemma create_folder_well_formed P k :
  well_formed P -> folders_get (folders P) k = None ->
  well_formed (create_folder P k).
Proof.
  intros [Hg Hn Hf Hd] Hk.
  split; cbn [create_folder history_list folders next_item].
  - rewrite (folders_set_new _ _ _ Hk), flat_map_app, Hg. reflexivity.
  - apply NoDup_app; [exact Hn | repeat constructor; simpl; tauto |].
    intros i Hi [<-|[]]. apply Hf in Hi. lia.
  - intros i Hi. apply in_app_or in Hi. destruct Hi as [Hi|[<-|[]]];
      [apply Hf in Hi|]; lia.
  - rewrite (folders_set_new _ _ _ Hk), map_app. simpl.
    apply NoDup_app; [exact Hd | repeat constructor; simpl; tauto |].
    intros x Hx [<-|[]]. exact (folders_get_none _ _ Hk Hx).
Qed.

(** A new chat row goes directly below the last chat of its folder. *)
Lemma add_row_well_formed P k folder (d : list (item_id * (str * str)))
    (w : list (item_id * chat_widget)) act n :
  well_formed P -> folders_get (folders P) k = Some folder ->
  let item := next_item P in
  let row := match row_of (history_list P) (f_item folder) with
             | Some r => r + length (f_items folder) + 1
             | None => length (f_items folder)
             end in
  well_formed
    {| folders := folders_set (folders P) k
                    {| f_item := f_item folder;
                       f_items := f_items folder ++ [item];
                       f_expanded := f_expanded folder |};
       history_list := insert_at (history_list P) row item;
       item_data := d; widgets := w; active_folder := act;
       chat_counter := n; next_item := S item;
       storage_root := storage_root P |}.
Proof.
  intros [Hg Hn Hf Hd] Hk item row.
  destruct (folders_split _ _ _ Hk) as (A & B & E & HA & Hs & _).
  set (FA := flat_map rows A). set (FB := flat_map rows B).
  set (G := f_item folder :: f_items folder).
  assert (Hl : history_list P = (FA ++ G) ++ FB).
  { rewrite Hg, E, flat_map_app, <- app_assoc. reflexivity. }
  assert (Hh : ~ In (f_item folder) FA).
  { rewrite Hl, <- app_assoc in Hn. unfold G in Hn.
    apply NoDup_remove_2 in Hn.
    intros H. apply Hn. apply in_or_app; auto. }
  assert (Hrow : row = length (FA ++ G)).
  { unfold row. rewrite Hl, <- app_assoc. unfold G.
    rewrite <- app_comm_cons, (row_of_app _ _ _ Hh).
    rewrite length_app. simpl. lia. }
  assert (Hins : insert_at (history_list P) row item
                 = (FA ++ G) ++ item :: FB).
  { rewrite Hrow, Hl. apply insert_at_app. }
  assert (Hfresh : ~ In item (history_list P)).
  { intros H. apply Hf in H. unfold item in H. lia. }
  split; cbn [history_list folders next_item].
  - rewrite Hins, Hs, flat_map_app. fold FA.
    change (flat_map rows ((k, {| f_item := f_item folder;
                                  f_items := f_items folder ++ [item];
                                  f_expanded := f_expanded folder |}) :: B))
      with ((f_item folder :: f_items folder ++ [item]) ++ FB).
    unfold G. rewrite <- !app_assoc. simpl. rewrite <- app_assoc.
    reflexivity.
  - rewrite Hins.
    apply (NoDup_Add (a := item) (l := history_list P)).
    + rewrite Hl. apply Add_app.
    + split; assumption.
  - intros i Hi. rewrite Hins in Hi.
    assert (In i (history_list P) \/ i = item) as [H| ->].
    { rewrite Hl. apply in_app_or in Hi.
      destruct Hi as [Hi|[Hi|Hi]]; auto; left; apply in_or_app; auto. }
    + apply Hf in H. unfold item. lia.
    + unfold item. lia.
  - rewrite Hs. rewrite E in Hd. rewrite map_app in *. exact Hd.
Qed.

(** X6.  The chat list keeps its layout when rows are added: the
    folders in the order of the dictionary, each header directly
    followed by the chats of its folder in the order they were added,
    no row twice.  [save_chat_to_folder] keeps this, whether it has to
    make the folder or not and whether it writes the file or not. *)
Theorem save_chat_to_folder_keeps_layout (P : panel) (f : fs)
    (now : datetime) (folder_name : str) (title : option str)
    (save_json : bool) :
  well_formed P ->
  well_formed (fst (fst (save_chat_to_folder P f now folder_name title
                           save_json))).
Proof.
  intros Hwf. unfold save_chat_to_folder.
  set (P1 := match folders_get (folders P) folder_name with
             | Some _ => P
             | None => create_folder P folder_name
             end).
  assert (H1 : well_formed P1
               /\ exists fo, folders_get (folders P1) folder_name = Some fo).
  { unfold P1. destruct (folders_get (folders P) folder_name) eqn:E.
    - split; eauto.
    - split; [apply create_folder_well_formed; assumption|].
      unfold create_folder. cbn [folders].
      rewrite folders_get_set_same. eauto. }
  destruct H1 as [Hwf1 [fo Hfo]]. rewrite Hfo.
  pose proof (add_row_well_formed P1 folder_name fo
                (store_set (item_data P1) (next_item P1)
                   (folder_name, title_or_stamp title now))
                (store_set (widgets P1) (next_item P1)
                   {| w_folder_name := folder_name;
                      w_label := title_or_stamp title now |})
                (active_folder P1) (S (chat_counter P1)) Hwf1 Hfo) as H.
  cbv zeta in H.
  destruct save_json; [|exact H].
  destruct (os_mkdir f _) as [f1|]; [|exact H].
  destruct (os_write f1 _ _); exact H.
Qed.

Lemma save_chat_to_folder_keeps_layout_witness :
  well_formed empty_panel
  /\ well_formed (fst (fst (save_chat_to_folder empty_panel fs_root t0
                              (lit "F") (Some (lit "A")) true))).
Proof.
  split; [exact well_formed_empty|].
  apply (save_chat_to_folder_keeps_layout empty_panel fs_root t0
           (lit "F") (Some (lit "A")) true).
  exact well_formed_empty.
Defined.

End PanelLayout.

(** ** Deleting rows: the list, the dictionary and the disk *)

Module PanelDeletion.

Import SidePanel PanelOps Fixtures PanelLayout.

Lemma mem_In i l : mem i l = true <-> In i l.
Proof.
  unfold mem. rewrite existsb_exists. split.
  - intros [x [Hx E]]. apply Nat.eqb_eq in E. subst x. exact Hx.
  - intros H. exists i. split; [exact H | apply Nat.eqb_refl].
Qed.

Lemma remove_first_notin l i : ~ In i l -> remove_first l i = l.
Proof.
  induction l as [|j r IH]; simpl; [reflexivity|]. intros H.
  destruct (Nat.eqb_spec j i) as [->|_]; [tauto|].
  rewrite IH by tauto. reflexivity.
Qed.

Lemma remove_first_app_notin X Y i :
  ~ In i X -> remove_first (X ++ Y) i = X ++ remove_first Y i.
Proof.
  induction X as [|x X IH]; simpl; [reflexivity|]. intros H.
  destruct (Nat.eqb_spec x i) as [->|_]; [tauto|].
  rewrite IH by tauto. reflexivity.
Qed.

Lemma remove_first_app_in X Y i :
  In i X -> remove_first (X ++ Y) i = remove_first X i ++ Y.
Proof.
  induction X as [|x X IH]; simpl; [tauto|]. intros H.
  destruct (Nat.eqb_spec x i) as [->|Hne]; [reflexivity|].
  rewrite IH by (destruct H; [contradiction | assumption]). reflexivity.
Qed.

Lemma remove_first_In l i j : In j (remove_first l i) -> In j l.
Proof.
  induction l as [|x r IH]; simpl; [tauto|].
  destruct (Nat.eqb x i); simpl; tauto.
Qed.

Lemma remove_first_NoDup l i : NoDup l -> NoDup (remove_first l i).
Proof.
  induction 1 as [|x r Hx Hr IH]; simpl; [constructor|].
  destruct (Nat.eqb x i); [exact Hr|].
  constructor; [|exact IH].
  intros H. apply Hx. exact (remove_first_In _ _ _ H).
Qed.

(** In a list without repetition, the row that was removed is gone. *)
Lemma remove_first_gone l i : NoDup l -> ~ In i (remove_first l i).
Proof.
  induction 1 as [|x r Hx Hr IH]; simpl; [tauto|].
  destruct (Nat.eqb_spec x i) as [->|Hne]; [exact Hx|].
  simpl. tauto.
Qed.

Lemma remove_first_keeps l i j :
  j <> i -> In j l -> In j (remove_first l i).
Proof.
  intros Hne. induction l as [|x r IH]; simpl; [tauto|].
  destruct (Nat.eqb_spec x i) as [->|_]; simpl; intuition congruence.
Qed.

Lemma NoDup_app_disjoint (X Y : list item_id) :
  NoDup (X ++ Y) -> forall a, In a X -> ~ In a Y.
Proof.
  induction X as [|x X IH]; simpl; [tauto|].
  intros Hn a [<-|Ha] Hy.
  - apply NoDup_cons_iff in Hn. destruct Hn as [Hn _].
    apply Hn. apply in_or_app; auto.
  - apply NoDup_cons_iff in Hn. destruct Hn as [_ Hn].
    exact (IH Hn a Ha Hy).
Qed.

(** Taking the rows of a block one by one takes the block. *)
Lemma fold_remove_first I : forall X Y,
  NoDup (X ++ I ++ Y) ->
  fold_left remove_first I (X ++ I ++ Y) = X ++ Y.
Proof.
  induction I as [|i I IH]; intros X Y Hn; [reflexivity|].
  cbn [fold_left app].
  assert (Hi : ~ In i X).
  { apply NoDup_remove_2 in Hn. intros H. apply Hn.
    apply in_or_app; auto. }
  rewrite (remove_first_app_notin _ _ _ Hi). cbn [remove_first].
  rewrite Nat.eqb_refl. apply IH.
  apply NoDup_remove_1 in Hn. exact Hn.
Qed.

Lemma well_formed_rows P k folder :
  well_formed P -> folders_get (folders P) k = Some folder ->
  exists A B,
    folders P = A ++ (k, folder) :: B
    /\ (forall v, folders_set (folders P) k v = A ++ (k, v) :: B)
    /\ folders_pop (folders P) k = A ++ B
    /\ history_list P
       = flat_map rows A ++ (f_item folder :: f_items folder)
           ++ flat_map rows B
    /\ ~ In k (map fst A) /\ ~ In k (map fst B).
Proof.
  intros [Hg _ _ Hd] Hk.
  destruct (folders_split _ _ _ Hk) as (A & B & E & HA & Hs & Hp).
  exists A, B. repeat split; try assumption.
  - rewrite Hg, E, flat_map_app. reflexivity.
  - apply folders_get_none; exact HA.
  - rewrite E, map_app in Hd. simpl in Hd.
    apply NoDup_remove_2 in Hd. intros H. apply Hd.
    apply in_or_app; auto.
Qed.

(** One chat row taken out of its folder and out of the list. *)
Lemma remove_row_well_formed P k folder item act :
  well_formed P -> folders_get (folders P) k = Some folder ->
  In item (f_items folder) ->
  well_formed
    (with_lists P
       (folders_set (folders P) k
          {| f_item := f_item folder;
             f_items := remove_first (f_items folder) item;
             f_expanded := f_expanded folder |})
       (remove_first (history_list P) item) act).
Proof.
  intros Hwf Hk Hin.
  destruct (well_formed_rows _ _ _ Hwf Hk)
    as (A & B & E & Hs & _ & Hl & _ & _).
  destruct Hwf as [Hg Hn Hf Hd].
  set (FA := flat_map rows A) in *. set (FB := flat_map rows B) in *.
  assert (Hrm : remove_first (history_list P) item
                = FA ++ (f_item folder :: remove_first (f_items folder) item)
                    ++ FB).
  { rewrite Hl. rewrite Hl in Hn.
    assert (H1 : ~ In item FA).
    { intros H. apply (NoDup_app_disjoint _ _ Hn item H).
      apply in_or_app. left. right. exact Hin. }
    assert (H2 : f_item folder <> item).
    { apply NoDup_app_remove_l in Hn. cbn [app] in Hn.
      apply NoDup_cons_iff in Hn. destruct Hn as [Hn _].
      intros E2. apply Hn. rewrite E2. apply in_or_app; auto. }
    rewrite (remove_first_app_notin _ _ _ H1). cbn [app remove_first].
    apply Nat.eqb_neq in H2. rewrite H2.
    rewrite (remove_first_app_in _ _ _ Hin). reflexivity. }
  split; cbn [with_lists history_list folders next_item].
  - rewrite Hrm, Hs, flat_map_app. reflexivity.
  - apply remove_first_NoDup; exact Hn.
  - intros i Hi. apply Hf. exact (remove_first_In _ _ _ Hi).
  - rewrite Hs. rewrite E, map_app in Hd. rewrite map_app. exact Hd.
Qed.

(** A folder taken out with all its rows. *)
Lemma remove_folder_list P k folder :
  well_formed P -> folders_get (folders P) k = Some folder ->
  exists A B,
    folders P = A ++ (k, folder) :: B
    /\ folders_pop (folders P) k = A ++ B
    /\ remove_first
         (fold_left remove_first (f_items folder) (history_list P))
         (f_item folder)
       = flat_map rows A ++ flat_map rows B
    /\ ~ In k (map fst A) /\ ~ In k (map fst B).
Proof.
  intros Hwf Hk.
  destruct (well_formed_rows _ _ _ Hwf Hk)
    as (A & B & E & _ & Hp & Hl & HA & HB).
  destruct Hwf as [_ Hn _ _].
  exists A, B. repeat split; try assumption.
  rewrite Hl in *.
  change (flat_map rows A ++ (f_item folder :: f_items folder)
            ++ flat_map rows B)
    with (flat_map rows A ++ [f_item folder] ++ f_items folder
            ++ flat_map rows B) in *.
  rewrite app_assoc in *. rewrite (fold_remove_first _ _ _ Hn).
  apply NoDup_app_remove_r in Hn as Hn'. rewrite <- app_assoc.
  assert (H1 : ~ In (f_item folder) (flat_map rows A)).
  { apply NoDup_remove_2 in Hn'. rewrite app_nil_r in Hn'. exact Hn'. }
  rewrite (remove_first_app_notin _ _ _ H1). cbn [app remove_first].
  rewrite Nat.eqb_refl. reflexivity.
Qed.

Lemma remove_folder_well_formed P k folder act :
  well_formed P -> folders_get (folders P) k = Some folder ->
  well_formed
    (with_lists P (folders_pop (folders P) k)
       (remove_first
          (fold_left remove_first (f_items folder) (history_list P))
          (f_item folder)) act).
Proof.
  intros Hwf Hk.
  destruct (remove_folder_list _ _ _ Hwf Hk)
    as (A & B & E & Hp & Hl & _ & _).
  destruct (well_formed_rows _ _ _ Hwf Hk)
    as (A' & B' & _ & _ & _ & _ & _ & _).
  destruct Hwf as [Hg Hn Hf Hd].
  assert (Hsub : forall i, In i (flat_map rows A ++ flat_map rows B) ->
                           In i (history_list P)).
  { intros i Hi. rewrite Hg, E, flat_map_app.
    apply in_app_or in Hi. apply in_or_app.
    destruct Hi; [left | right; simpl; right; apply in_or_app; right];
      assumption. }
  split; cbn [with_lists history_list folders next_item].
  - rewrite Hl, Hp, flat_map_app. reflexivity.
  - rewrite Hl. rewrite Hg, E, flat_map_app in Hn. cbn [flat_map] in Hn.
    pose proof (NoDup_app_disjoint _ _ Hn) as Hdis.
    apply NoDup_app.
    + exact (NoDup_app_remove_r _ _ Hn).
    + apply NoDup_app_remove_l in Hn. cbn [app] in Hn.
      apply NoDup_cons_iff in Hn. destruct Hn as [_ Hn].
      exact (NoDup_app_remove_l _ _ Hn).
    + intros x Hx Hx'. apply (Hdis x Hx). right.
      apply in_or_app. right. exact Hx'.
  - intros i Hi. rewrite Hl in Hi. apply Hf, Hsub, Hi.
  - rewrite Hp. rewrite E, map_app in Hd. rewrite map_app.
    simpl in Hd. apply NoDup_remove_1 in Hd. exact Hd.
Qed.

Lemma well_formed_panel_AB : well_formed panel_AB.
Proof.
  split.
  - reflexivity.
  - vm_compute. repeat constructor; simpl; intuition discriminate.
  - vm_compute. intros i [<-|[<-|[<-|[]]]]; repeat constructor.
  - vm_compute. repeat constructor. simpl. tauto.
Qed.

(** X7.  Deleting keeps the layout of the chat list: after
    [delete_chat] and after [delete_folder], on any row and whatever
    the disk does, the list still shows the folders of the dictionary
    in order, each header followed by the chats of its folder, no row
    twice. *)
Theorem delete_keeps_layout (P : panel) (f : fs) (now : datetime)
    (item : item_id) :
  well_formed P ->
  well_formed (fst (delete_chat P f now item))
  /\ well_formed (fst (delete_folder P f item)).
Proof.
  intros Hwf. split.
  - unfold delete_chat.
    destruct (data_of P item) as [[k t]|]; [|exact Hwf].
    destruct (folders_get (folders P) k) as [folder|] eqn:Hk; [|exact Hwf].
    destruct (mem item (f_items folder)) eqn:Hm; [|exact Hwf].
    cbn [negb fst]. apply remove_row_well_formed; try assumption.
    apply mem_In; exact Hm.
  - unfold delete_folder.
    destruct (data_of P item) as [[k t]|]; [|exact Hwf].
    destruct (folders_get (folders P) k) as [folder|] eqn:Hk; [|exact Hwf].
    cbn [fst]. apply remove_folder_well_formed; assumption.
Qed.

Lemma delete_keeps_layout_witness :
  well_formed panel_AB
  /\ well_formed (fst (delete_chat panel_AB fs_AB t0 item_A))
  /\ well_formed (fst (delete_folder panel_AB fs_AB 0)).
Proof.
  split; [exact well_formed_panel_AB|]. split.
  - apply (delete_keeps_layout panel_AB fs_AB t0 item_A).
    exact well_formed_panel_AB.
  - apply (delete_keeps_layout panel_AB fs_AB t0 0).
    exact well_formed_panel_AB.
Defined.

Lemma folders_get_notin d k :
  ~ In k (map fst d) -> folders_get d k = None.
Proof.
  induction d as [|[k' v'] r IH]; simpl; [reflexivity|]. intros H.
  destruct (str_eqb k' k) eqn:E; [|apply IH; tauto].
  apply str_eqb_eq in E. tauto.
Qed.

Lemma folders_get_app A B k :
  folders_get (A ++ B) k
  = match folders_get A k with
    | Some v => Some v
    | None => folders_get B k
    end.
Proof.
  induction A as [|[k' v'] r IH]; simpl; [reflexivity|].
  destruct (str_eqb k' k); [reflexivity | exact IH].
Qed.

Lemma folders_get_skip A B k k' v :
  k' <> k ->
  folders_get (A ++ (k, v) :: B) k' = folders_get (A ++ B) k'.
Proof.
  intros Hne. rewrite !folders_get_app. cbn [folders_get].
  apply str_eqb_neq in Hne.
  destruct (str_eqb k k') eqn:E; [|reflexivity].
  apply str_eqb_eq in E. subst k'. rewrite str_eqb_refl in Hne.
  discriminate.
Qed.

(** The entries that a filter on the path keeps. *)
Lemma assoc_filter (g : Path -> bool) f q :
  assoc (filter (fun e => g (fst e)) f) q
  = if g q then assoc f q else None.
Proof.
  induction f as [|[k n] r IH]; simpl; [destruct (g q); reflexivity|].
  destruct (g k) eqn:Ek; simpl.
  - destruct (path_eqb k q) eqn:E; [|exact IH].
    apply path_eqb_eq in E. subst k. rewrite Ek. reflexivity.
  - rewrite IH.
    destruct (path_eqb k q) eqn:E; [|reflexivity].
    apply path_eqb_eq in E. subst k. rewrite Ek. reflexivity.
Qed.

Lemma below_nil_r p : below p [] = false.
Proof. destruct p; reflexivity. Qed.

Lemma below_root p : p <> [] -> below p [ROOT] = false.
Proof.
  destruct p as [|x p]; [tauto|]. intros _. simpl.
  rewrite below_nil_r. apply andb_false_r.
Qed.

(** X8.  [delete_folder] on a row of folder [k] whose directory is
    there: the folder leaves the dictionary and the other folders stay;
    the list loses the header and the chat rows of that folder and
    nothing else; on disk the directory and everything below it are
    gone and every other path is as it was. *)
Theorem delete_folder_removes (P : panel) (f : fs) (item : item_id)
    (k t : str) (folder : folder_rec) :
  well_formed P ->
  data_of P item = Some (k, t) ->
  folders_get (folders P) k = Some folder ->
  fs_is_dir f (pjoin (storage_root P) k) = true ->
  ~ special (pjoin (storage_root P) k) ->
  let dir := pjoin (storage_root P) k in
  let P' := fst (delete_folder P f item) in
  let f' := snd (delete_folder P f item) in
  folders_get (folders P') k = None
  /\ (forall k', k' <> k ->
        folders_get (folders P') k' = folders_get (folders P) k')
  /\ (forall i, In i (history_list P')
                <-> In i (history_list P) /\ ~ In i (rows (k, folder)))
  /\ (forall q, fs_lookup f' q
                = if path_eqb q dir || below dir q then None
                  else fs_lookup f q).
Proof.
  intros Hwf Hd Hk Hdir Hsp dir P' f'.
  destruct (remove_folder_list _ _ _ Hwf Hk)
    as (A & B & E & Hp & Hl & HA & HB).
  destruct (well_formed_rows _ _ _ Hwf Hk)
    as (A' & B' & _ & _ & _ & _ & _ & _). clear A' B'.
  assert (Hn := wf_nodup _ Hwf).
  assert (Hg := wf_grouped _ Hwf).
  assert (HP' : folders P' = A ++ B
                /\ history_list P' = flat_map rows A ++ flat_map rows B).
  { unfold P', delete_folder. rewrite Hd, Hk. cbn [fst with_lists
      folders history_list]. split; assumption. }
  destruct HP' as [HfP HlP].
  assert (Hf' : f' = filter (fun e => negb (path_eqb (fst e) dir)
                                      && negb (below dir (fst e))) f).
  { unfold f', delete_folder, dir. rewrite Hd, Hk. cbn [snd].
    rewrite (ResolveTheorems.fs_is_dir_exists _ _ Hdir).
    unfold os_rmtree. unfold fs_is_dir in Hdir.
    rewrite (fs_lookup_assoc _ _ Hsp) in Hdir.
    destruct (assoc f (pjoin (storage_root P) k)) as [[c|]|];
      simpl in Hdir; try discriminate Hdir. reflexivity. }
  split; [|split; [|split]].
  - rewrite HfP. apply folders_get_notin. rewrite map_app.
    intros H. apply in_app_or in H. tauto.
  - intros k' Hne. rewrite HfP, E. symmetry.
    apply folders_get_skip; exact Hne.
  - intros i. rewrite HlP, Hg, E, flat_map_app.
    rewrite Hg, E, flat_map_app in Hn.
    change (flat_map rows ((k, folder) :: B))
      with (rows (k, folder) ++ flat_map rows B) in *.
    pose proof (NoDup_app_disjoint _ _ Hn) as D1.
    pose proof (NoDup_app_disjoint _ _ (NoDup_app_remove_l _ _ Hn)) as D2.
    rewrite !in_app_iff. split.
    + intros [H|H].
      * split; [tauto|]. intros H'. apply (D1 i H).
        apply in_or_app; auto.
      * split; [tauto|]. intros H'. exact (D2 i H' H).
    + tauto.
  - intros q. rewrite Hf'.
    destruct q as [|c r].
    + cbn [fs_lookup]. rewrite below_nil_r.
      destruct (path_eqb [] dir) eqn:Eq; [|reflexivity].
      apply path_eqb_eq in Eq. exfalso. apply Hsp. left. auto.
    + unfold fs_lookup.
      destruct (path_eqb (c :: r) [ROOT]) eqn:Er.
      * apply path_eqb_eq in Er. rewrite Er.
        rewrite below_root by (intros H; apply Hsp; left; exact H).
        destruct (path_eqb [ROOT] dir) eqn:Eq; [|reflexivity].
        apply path_eqb_eq in Eq. exfalso. apply Hsp. right. auto.
      * rewrite (assoc_filter
                   (fun p => negb (path_eqb p dir) && negb (below dir p))).
        destruct (path_eqb (c :: r) dir); [reflexivity|].
        destruct (below dir (c :: r)); reflexivity.
Qed.

Lemma delete_folder_removes_witness :
  let P := panel_AB in
  let folder := {| f_item := 0; f_items := [item_A; item_B];
                   f_expanded := true |} in
  let P' := fst (delete_folder P fs_AB 0) in
  let f' := snd (delete_folder P fs_AB 0) in
  fs_is_dir fs_AB folder_F = true
  /\ folders_get (folders P') (lit "F") = None
  /\ (forall k', k' <> lit "F" ->
        folders_get (folders P') k' = folders_get (folders P) k')
  /\ (forall i, In i (history_list P')
                <-> In i (history_list P)
                    /\ ~ In i (rows (lit "F", folder)))
  /\ (forall q, fs_lookup f' q
                = if path_eqb q folder_F || below folder_F q then None
                  else fs_lookup fs_AB q).
Proof.
  split; [reflexivity|].
  apply (delete_folder_removes panel_AB fs_AB 0 (lit "F") []
           {| f_item := 0; f_items := [item_A; item_B];
              f_expanded := true |}).
  - exact well_formed_panel_AB.
  - reflexivity.
  - reflexivity.
  - reflexivity.
  - intros [E|E]; discriminate.
Defined.

(** X9.  [delete_chat] on a chat row of a folder: the row leaves the
    list and the items of its folder, every other row stays, and on
    disk at most one entry goes.  The path tried is [title.json] if
    something is there and the sanitized name otherwise; it is removed
    when it is a regular file, and every other path reads as before. *)
Theorem delete_chat_removes (P : panel) (f : fs) (now : datetime)
    (item : item_id) (k t : str) (folder : folder_rec) :
  well_formed P ->
  data_of P item = Some (k, t) ->
  folders_get (folders P) k = Some folder ->
  In item (f_items folder) ->
  let dir := pjoin (storage_root P) k in
  let by_title := pjoin dir (t ++ JSON_EXT) in
  let by_clean := pjoin dir (sanitize_filename now t ++ JSON_EXT) in
  let target := if fs_exists f by_title then by_title else by_clean in
  let P' := fst (delete_chat P f now item) in
  let f' := snd (delete_chat P f now item) in
  ~ In item (history_list P')
  /\ (forall i, i <> item ->
        (In i (history_list P') <-> In i (history_list P)))
  /\ option_map f_items (folders_get (folders P') k)
     = Some (remove_first (f_items folder) item)
  /\ (forall k', k' <> k ->
        folders_get (folders P') k' = folders_get (folders P) k')
  /\ (forall q, fs_lookup f' q
                = if fs_is_file f target && path_eqb q target then None
                  else fs_lookup f q).
Proof.
  intros Hwf Hd Hk Hin dir by_title by_clean target P' f'.
  assert (Hn := wf_nodup _ Hwf).
  destruct (well_formed_rows _ _ _ Hwf Hk)
    as (A & B & E & Hs & _ & _ & HA & _).
  apply mem_In in Hin as Hm.
  assert (HP' : history_list P' = remove_first (history_list P) item
                /\ folders P'
                   = A ++ (k, {| f_item := f_item folder;
                                 f_items := remove_first (f_items folder)
                                              item;
                                 f_expanded := f_expanded folder |}) :: B).
  { unfold P', delete_chat. rewrite Hd, Hk, Hm.
    cbn [negb fst with_lists history_list folders].
    split; [reflexivity | apply Hs]. }
  destruct HP' as [HlP HfP].
  assert (Hf' : f' = if fs_is_file f target then fs_remove f target
                     else f).
  { unfold f', delete_chat. rewrite Hd, Hk, Hm. cbn [negb snd].
    fold dir. fold by_title. fold by_clean. unfold target, os_unlink.
    destruct (fs_exists f by_title) eqn:E1.
    - destruct (fs_is_file f by_title); reflexivity.
    - destruct (fs_exists f by_clean) eqn:E2.
      + destruct (fs_is_file f by_clean); reflexivity.
      + unfold fs_is_file. unfold fs_exists in E2.
        destruct (fs_lookup f by_clean); [discriminate | reflexivity]. }
  split; [|split; [|split; [|split]]].
  - rewrite HlP. apply remove_first_gone; exact Hn.
  - intros i Hne. rewrite HlP. split.
    + apply remove_first_In.
    + apply remove_first_keeps; exact Hne.
  - rewrite HfP, folders_get_app, (folders_get_notin _ _ HA).
    cbn [folders_get]. rewrite str_eqb_refl. reflexivity.
  - intros k' Hne. rewrite HfP, E, !folders_get_skip by exact Hne.
    reflexivity.
  - intros q. rewrite Hf'.
    destruct (fs_is_file f target) eqn:Ef; [|reflexivity].
    cbn [andb].
    assert (Hsp : ~ special target).
    { unfold fs_is_file in Ef.
      destruct (fs_lookup f target) as [[c|]|] eqn:El; try discriminate.
      exact (fs_lookup_file_not_special _ _ _ El). }
    destruct (path_eqb q target) eqn:Eq.
    + apply path_eqb_eq in Eq. subst q.
      apply fs_lookup_remove_same; exact Hsp.
    + apply path_eqb_neq in Eq.
      apply fs_lookup_remove_other; exact Eq.
Qed.

Lemma delete_chat_removes_witness :
  let P := panel_AB in
  let target := pjoin folder_F (lit "A.json") in
  let P' := fst (delete_chat P fs_AB t0 item_A) in
  let f' := snd (delete_chat P fs_AB t0 item_A) in
  ~ In item_A (history_list P')
  /\ (forall i, i <> item_A ->
        (In i (history_list P') <-> In i (history_list P)))
  /\ option_map f_items (folders_get (folders P') (lit "F"))
     = Some [item_B]
  /\ (forall k', k' <> lit "F" ->
        folders_get (folders P') k' = folders_get (folders P) k')
  /\ (forall q, fs_lookup f' q
                = if path_eqb q target then None else fs_lookup fs_AB q).
Proof.
  apply (delete_chat_removes panel_AB fs_AB t0 item_A (lit "F") (lit "A")
           {| f_item := 0; f_items := [item_A; item_B];
              f_expanded := true |}).
  - exact well_formed_panel_AB.
  - reflexivity.
  - reflexivity.
  - simpl. auto.
Defined.

End PanelDeletion.

(** ** Renaming a folder *)

Module FolderRename.

Import SidePanel PanelOps Fixtures PanelLayout PanelDeletion.

Lemma store_get_set {A} (s : list (item_id * A)) i v j :
  store_get (store_set s i v) j
  = if Nat.eqb i j then Some v else store_get s j.
Proof.
  unfold store_set. cbn [store_get fst].
  destruct (Nat.eqb_spec i j) as [->|Hne]; [reflexivity|].
  induction s as [|[x a] r IH]; simpl; [reflexivity|].
  destruct (Nat.eqb_spec x i) as [->|Hx]; simpl.
  - destruct (Nat.eqb_spec i j); [contradiction | exact IH].
  - destruct (Nat.eqb x j); [reflexivity | exact IH].
Qed.

(** The loop over the chat rows, when every row has its data: it runs
    to the end, and each row of the folder gets the new folder name and
    keeps its title. *)
Lemma retitle_spec items : forall d new_name,
  (forall i, In i items -> store_get d i <> None) ->
  snd (retitle d items new_name) = true
  /\ forall j,
       store_get (fst (retitle d items new_name)) j
       = if mem j items
         then option_map (fun x => (new_name, snd x)) (store_get d j)
         else store_get d j.
Proof.
  induction items as [|a items IH]; intros d new_name H.
  - split; reflexivity.
  - destruct (store_get d a) as [[fn title]|] eqn:Ed;
      [|exfalso; apply (H a); simpl; auto].
    cbn [retitle]. rewrite Ed.
    destruct (IH (store_set d a (new_name, title)) new_name) as [Hok Hget].
    { intros i Hi. rewrite store_get_set.
      destruct (Nat.eqb a i); [discriminate | apply H; right; exact Hi]. }
    split; [exact Hok|]. intros j. rewrite Hget, store_get_set.
    unfold mem. cbn [existsb]. fold (mem j items).
    destruct (Nat.eqb_spec a j) as [->|Hne].
    + rewrite Nat.eqb_refl, Ed. cbn [orb option_map snd].
      destruct (mem j items); reflexivity.
    + replace (Nat.eqb j a) with false
        by (symmetry; apply Nat.eqb_neq; congruence).
      reflexivity.
Qed.

Lemma is_nil_false (s : str) : s <> [] -> is_nil s = false.
Proof. destruct s; [tauto | reflexivity]. Qed.

(** The call that passes the guards and finds the data of every row. *)
Lemma update_folder_name_eq P f old_name new_name folder :
  new_name <> [] -> new_name <> old_name ->
  folders_get (folders P) new_name = None ->
  folders_get (folders P) old_name = Some folder ->
  (forall i, In i (f_items folder) -> data_of P i <> None) ->
  update_folder_name P f old_name new_name
  = ({| folders := folders_pop (folders P) old_name
                     ++ [(new_name, folder)];
        history_list := history_list P;
        item_data :=
          fst (retitle (store_set (item_data P) (f_item folder)
                                  (new_name, []))
                       (f_items folder) new_name);
        widgets := widgets P;
        active_folder :=
          match active_folder P with
          | Some a => if str_eqb a old_name then Some new_name else Some a
          | None => None
          end;
        chat_counter := chat_counter P;
        next_item := next_item P;
        storage_root := storage_root P |},
     if fs_exists f (pjoin (storage_root P) old_name) then
       match os_rename f (pjoin (storage_root P) old_name)
                       (pjoin (storage_root P) new_name) with
       | Some f1 => f1
       | None => f
       end
     else f).
Proof.
  intros Hn Hne Hnew Hold Hdata. unfold update_folder_name.
  rewrite (is_nil_false _ Hn).
  apply str_eqb_neq in Hne. rewrite Hne. cbn [orb].
  rewrite Hnew, Hold.
  destruct (retitle_spec (f_items folder)
              (store_set (item_data P) (f_item folder) (new_name, []))
              new_name) as [Hok _].
  { intros i Hi. rewrite store_get_set.
    destruct (Nat.eqb (f_item folder) i); [discriminate|].
    apply Hdata; exact Hi. }
  destruct (retitle _ _ _) as [d1 ok]. cbn [snd fst] in *. subst ok.
  reflexivity.
Qed.

(** X10.  A folder renamed in memory.  When the new name is not empty,
    differs from the old one and is not taken, and every chat row of
    the folder has its data: the folder is found under the new name and
    no longer under the old one, the other folders stay; the header
    carries the new name, every chat row of the folder carries the new
    folder name with its own title, and the rows of other folders keep
    their data; the list is as it was, and the active folder follows
    the rename. *)
Theorem update_folder_name_moves_rows (P : panel) (f : fs)
    (old_name new_name : str) (folder : folder_rec) :
  well_formed P ->
  new_name <> [] -> new_name <> old_name ->
  folders_get (folders P) new_name = None ->
  folders_get (folders P) old_name = Some folder ->
  (forall i, In i (f_items folder) -> data_of P i <> None) ->
  let P' := fst (update_folder_name P f old_name new_name) in
  folders_get (folders P') new_name = Some folder
  /\ folders_get (folders P') old_name = None
  /\ (forall k, k <> old_name -> k <> new_name ->
        folders_get (folders P') k = folders_get (folders P) k)
  /\ data_of P' (f_item folder) = Some (new_name, [])
  /\ (forall i, In i (f_items folder) ->
        data_of P' i
        = option_map (fun x => (new_name, snd x)) (data_of P i))
  /\ (forall i, ~ In i (rows (old_name, folder)) ->
        data_of P' i = data_of P i)
  /\ history_list P' = history_list P
  /\ active_folder P'
     = match active_folder P with
       | Some a => if str_eqb a old_name then Some new_name else Some a
       | None => None
       end.
Proof.
  intros Hwf Hn Hne Hnew Hold Hdata P'. unfold P'.
  rewrite (update_folder_name_eq P f _ _ _ Hn Hne Hnew Hold Hdata).
  unfold data_of.
  cbn [fst folders history_list active_folder item_data].
  destruct (well_formed_rows _ _ _ Hwf Hold)
    as (A & B & E & _ & Hp & Hl & HA & HB).
  assert (Hnd := wf_nodup _ Hwf). rewrite Hl in Hnd.
  assert (Hh : ~ In (f_item folder) (f_items folder)).
  { apply NoDup_app_remove_l in Hnd. cbn [app] in Hnd.
    apply NoDup_cons_iff in Hnd. destruct Hnd as [Hnd _].
    intros H. apply Hnd. apply in_or_app; auto. }
  destruct (retitle_spec (f_items folder)
              (store_set (item_data P) (f_item folder) (new_name, []))
              new_name) as [_ Hget].
  { intros i Hi. rewrite store_get_set.
    destruct (Nat.eqb (f_item folder) i); [discriminate|].
    apply (Hdata i Hi). }
  assert (Hno : forall i, ~ In i (f_items folder) ->
                          mem i (f_items folder) = false).
  { intros i Hi. destruct (mem i (f_items folder)) eqn:Em; [|reflexivity].
    apply mem_In in Em. contradiction. }
  pose proof (folders_get_none _ _ Hnew) as Hnk.
  rewrite E, map_app in Hnk. cbn [map fst] in Hnk.
  assert (HnA : ~ In new_name (map fst A))
    by (intros H; apply Hnk; apply in_or_app; auto).
  assert (HnB : ~ In new_name (map fst B))
    by (intros H; apply Hnk; apply in_or_app; right; right; exact H).
  rewrite Hp.
  split; [|split; [|split; [|split; [|split; [|split; [|split]]]]]].
  - rewrite <- app_assoc, !folders_get_app.
    rewrite (folders_get_notin _ _ HnA), (folders_get_notin _ _ HnB).
    cbn [folders_get]. rewrite str_eqb_refl. reflexivity.
  - rewrite <- app_assoc, !folders_get_app.
    rewrite (folders_get_notin _ _ HA), (folders_get_notin _ _ HB).
    cbn [folders_get]. apply str_eqb_neq in Hne. rewrite Hne. reflexivity.
  - intros k Hk1 Hk2. rewrite E, (folders_get_skip _ _ _ _ _ Hk1).
    rewrite (folders_get_app (A ++ B)). cbn [folders_get].
    apply not_eq_sym in Hk2. apply str_eqb_neq in Hk2. rewrite Hk2.
    destruct (folders_get (A ++ B) k); reflexivity.
  - rewrite Hget, (Hno _ Hh), store_get_set, Nat.eqb_refl. reflexivity.
  - intros i Hi. rewrite Hget. apply mem_In in Hi as Hm. rewrite Hm.
    rewrite store_get_set.
    destruct (Nat.eqb_spec (f_item folder) i) as [E1|_];
      [rewrite <- E1 in Hi; contradiction | reflexivity].
  - intros i Hi. unfold rows in Hi. cbn [snd In] in Hi.
    rewrite Hget, Hno by tauto. rewrite store_get_set.
    destruct (Nat.eqb_spec (f_item folder) i); [tauto | reflexivity].
  - reflexivity.
  - reflexivity.
Qed.

Lemma panel_AB_data i :
  In i (f_items {| f_item := 0; f_items := [item_A; item_B];
                   f_expanded := true |}) ->
  data_of panel_AB i <> None.
Proof. intros [<-|[<-|[]]]; discriminate. Qed.

Lemma update_folder_name_moves_rows_witness :
  let P' := fst (update_folder_name panel_AB fs_AB (lit "F") (lit "G")) in
  folders_get (folders P') (lit "G")
  = Some {| f_item := 0; f_items := [item_A; item_B]; f_expanded := true |}
  /\ folders_get (folders P') (lit "F") = None
  /\ data_of P' 0 = Some (lit "G", [])
  /\ data_of P' item_A = Some (lit "G", lit "A")
  /\ data_of P' item_B = Some (lit "G", lit "B")
  /\ history_list P' = [0; item_A; item_B]
  /\ active_folder P' = Some (lit "G").
Proof.
  destruct (update_folder_name_moves_rows panel_AB fs_AB (lit "F") (lit "G")
              {| f_item := 0; f_items := [item_A; item_B];
                 f_expanded := true |})
    as (H1 & H2 & _ & H4 & H5 & _ & H7 & H8).
  - exact well_formed_panel_AB.
  - discriminate.
  - discriminate.
  - reflexivity.
  - reflexivity.
  - exact panel_AB_data.
  - split; [exact H1|]. split; [exact H2|]. split; [exact H4|].
    split; [apply (H5 item_A); simpl; auto|].
    split; [apply (H5 item_B); simpl; auto|].
    split; [exact H7 | exact H8].
Defined.

(** X11.  The widget of a chat row keeps the folder name it was made
    with.  After the folder has been renamed, an inline rename of such
    a row writes the old folder name back into the data of the row:
    [rename_chat] then looks into the old directory and, when that is
    gone, leaves the disk as it is; and [delete_chat] on the row finds
    no folder of that name and does nothing at all. *)
Theorem chat_rename_after_folder_rename (lower : str -> str)
    (P : panel) (f : fs) (now : datetime) (old_name new_name : str)
    (folder : folder_rec) (item : item_id) (w : chat_widget) (text : str) :
  well_formed P ->
  new_name <> [] -> new_name <> old_name ->
  folders_get (folders P) new_name = None ->
  folders_get (folders P) old_name = Some folder ->
  (forall i, In i (f_items folder) -> data_of P i <> None) ->
  store_get (widgets P) item = Some w ->
  w_folder_name w = old_name ->
  let P1 := fst (update_folder_name P f old_name new_name) in
  let f1 := snd (update_folder_name P f old_name new_name) in
  let P2 := fst (finish_rename lower P1 f1 now item text) in
  let f2 := snd (finish_rename lower P1 f1 now item text) in
  let title := match strip text with [] => w_label w | x => x end in
  data_of P2 item = Some (old_name, title)
  /\ folders_get (folders P2) old_name = None
  /\ (fs_exists f1 (pjoin (storage_root P) old_name) = false -> f2 = f1)
  /\ forall later, delete_chat P2 f2 later item = (P2, f2).
Proof.
  intros Hwf Hn Hne Hnew Hold Hdata Hw Hwn P1 f1 P2 f2 title.
  destruct (update_folder_name_moves_rows P f old_name new_name folder
              Hwf Hn Hne Hnew Hold Hdata) as (_ & Hgone & _).
  fold P1 in Hgone.
  assert (Hw1 : widgets P1 = widgets P /\ storage_root P1 = storage_root P).
  { unfold P1.
    rewrite (update_folder_name_eq P f _ _ _ Hn Hne Hnew Hold Hdata).
    split; reflexivity. }
  destruct Hw1 as [Hw1 Hr1].
  assert (HP2 : data_of P2 item = Some (old_name, title)
                /\ folders P2 = folders P1
                /\ storage_root P2 = storage_root P).
  { unfold P2, finish_rename. rewrite Hw1, Hw, Hwn.
    unfold data_of. cbn [fst item_data folders storage_root].
    rewrite ControllerTheorems.store_get_set_same.
    split; [reflexivity|]. split; [reflexivity | exact Hr1]. }
  destruct HP2 as (Hd2 & Hf2 & Hr2).
  split; [exact Hd2|]. split; [rewrite Hf2; exact Hgone|]. split.
  - intros Hex. unfold f2, finish_rename. rewrite Hw1, Hw, Hwn.
    cbn [snd]. unfold rename_chat, data_of.
    cbn [item_data storage_root].
    rewrite ControllerTheorems.store_get_set_same, Hr1, Hex.
    reflexivity.
  - intros later. unfold delete_chat. rewrite Hd2, Hf2, Hgone.
    reflexivity.
Qed.

End FolderRename.
